(** * S3 image uploader: upload orchestration and placeholder reconciliation

    A shallow embedding of [src/main.ts] (the Obsidian plugin
    [S3UploaderPlugin]) together with the properties its specification
    states about it.

    Conventions of the embedding.
    - A JavaScript string is a [string]: a sequence of code units, here
      restricted to the 8-bit range.
    - [indexOf] and [lastIndexOf] return [option nat]; [None] stands for
      JavaScript's [-1] ([js_index] converts where the source computes
      with the number).
    - An exception is the [Throw] branch of [Completion]; a promise is
      [Pending], [Fulfilled] or [Rejected].
    - The collaborators the plugin does not implement (the editor, the
      vault adapter, the S3 client, the hash) are either small explicit
      models or parameters. *)

From Stdlib Require Import String Ascii List Bool Arith ZArith Lia.
From Stdlib Require Import DecimalString DecimalPos DecimalZ.
Import ListNotations.

Local Open Scope nat_scope.
Local Open Scope list_scope.
Local Open Scope string_scope.

(* ================================================================== *)
(** * Part I: the embedding                                            *)
(* ================================================================== *)

(** ** JavaScript string primitives used by the plugin *)

Module JS.

(** The line feed and double quote characters, built from their codes. *)
Definition LF : ascii := ascii_of_nat 10.
Definition DQ : ascii := ascii_of_nat 34.
Definition nl : string := String LF EmptyString.
Definition dq : string := String DQ EmptyString.

(** [s.startsWith(p)]. *)
Fixpoint startsWith (s p : string) {struct p} : bool :=
  match p with
  | EmptyString => true
  | String c p' =>
      match s with
      | EmptyString => false
      | String d s' => Ascii.eqb d c && startsWith s' p'
      end
  end.

(** [s.indexOf(t)]: the least position at which [t] occurs. *)
Fixpoint indexOf (s t : string) : option nat :=
  if startsWith s t then Some 0
  else match s with
       | EmptyString => None
       | String _ s' => option_map S (indexOf s' t)
       end.

(** [s.lastIndexOf(t)]: the greatest position at which [t] occurs. *)
Fixpoint lastIndexOf (s t : string) : option nat :=
  match s with
  | EmptyString => if startsWith s t then Some 0 else None
  | String _ s' =>
      match lastIndexOf s' t with
      | Some i => Some (S i)
      | None => if startsWith s t then Some 0 else None
      end
  end.

(** The number JavaScript returns for an index. *)
Definition js_index (o : option nat) : Z :=
  match o with
  | Some i => Z.of_nat i
  | None => (-1)%Z
  end.

(** The first [n] code units, and what follows them. *)
Fixpoint take (n : nat) (s : string) : string :=
  match n, s with
  | S k, String c s' => String c (take k s')
  | _, _ => EmptyString
  end.

Fixpoint drop (n : nat) (s : string) : string :=
  match n, s with
  | S k, String _ s' => drop k s'
  | _, _ => s
  end.

(** [s.substring(a, b)]: both ends clamped to [0, length], swapped when
    [a > b]. *)
Definition clamp (s : string) (i : Z) : nat :=
  Nat.min (Z.to_nat i) (String.length s).

Definition substring (s : string) (a b : Z) : string :=
  let a' := clamp s a in
  let b' := clamp s b in
  let lo := Nat.min a' b' in
  let hi := Nat.max a' b' in
  take (hi - lo) (drop lo s).

(** [s.slice(a)] for a non-negative [a]. *)
Definition slice (s : string) (a : nat) : string := drop a s.

(** [s.split(sep)] for a one-character separator: never the empty list. *)
Fixpoint split (sep : ascii) (s : string) : list string :=
  match s with
  | EmptyString => [EmptyString]
  | String c s' =>
      if Ascii.eqb c sep then EmptyString :: split sep s'
      else match split sep s' with
           | [] => [String c EmptyString]
           | l :: ls => String c l :: ls
           end
  end.

(** [a.join(sep)]. *)
Fixpoint join (sep : string) (l : list string) : string :=
  match l with
  | [] => EmptyString
  | [x] => x
  | x :: rest => x ++ sep ++ join sep rest
  end.

(** [a.pop()] as a value: the last element, [undefined] on the empty
    array. *)
Fixpoint pop (l : list string) : option string :=
  match l with
  | [] => None
  | [x] => Some x
  | _ :: rest => pop rest
  end.

(** A value interpolated in a template literal. *)
Definition interpolate (o : option string) : string :=
  match o with
  | Some s => s
  | None => "undefined"
  end.

(** White space and line terminators in the 8-bit range: TAB, LF, VT, FF,
    CR, SPACE and NBSP. *)
Definition is_white (c : ascii) : bool :=
  let n := nat_of_ascii c in
  (Nat.leb 9 n && Nat.leb n 13) || Nat.eqb n 32 || Nat.eqb n 160.

Fixpoint trimStart (s : string) : string :=
  match s with
  | EmptyString => EmptyString
  | String c s' => if is_white c then trimStart s' else s
  end.

Fixpoint trimEnd (s : string) : string :=
  match s with
  | EmptyString => EmptyString
  | String c s' =>
      match trimEnd s' with
      | EmptyString => if is_white c then EmptyString else String c EmptyString
      | r => String c r
      end
  end.

(** [s.trim()]. *)
Definition trim (s : string) : string := trimEnd (trimStart s).

(** The replacement text of [String.prototype.replace] (ECMAScript's
    GetSubstitution) for a string pattern, which has no captures: [$$] is
    a dollar, [$&] the match, [$`] the text before it, [$'] the text after
    it; any other dollar stands for itself. *)
Fixpoint getSubstitution (matched before after repl : string) : string :=
  match repl with
  | EmptyString => EmptyString
  | String c rest =>
      if Ascii.eqb c "$" then
        match rest with
        | EmptyString => String c EmptyString
        | String d rest' =>
            if Ascii.eqb d "$" then
              String "$" (getSubstitution matched before after rest')
            else if Ascii.eqb d "&" then
              matched ++ getSubstitution matched before after rest'
            else if Ascii.eqb d "`" then
              before ++ getSubstitution matched before after rest'
            else if Ascii.eqb d "'" then
              after ++ getSubstitution matched before after rest'
            else String c (getSubstitution matched before after rest)
        end
      else String c (getSubstitution matched before after rest)
  end.

(** [s.replace(pat, repl)] for a string [pat]: the first occurrence only. *)
Definition replace (s pat repl : string) : string :=
  match indexOf s pat with
  | None => s
  | Some i =>
      let before := take i s in
      let after := drop (i + String.length pat) s in
      before ++ getSubstitution pat before after repl ++ after
  end.

(** [s.padStart(n, c)] for a one-character filler. *)
Fixpoint repeat_char (c : ascii) (n : nat) : string :=
  match n with
  | 0 => EmptyString
  | S k => String c (repeat_char c k)
  end.

Definition padStart (s : string) (n : nat) (c : ascii) : string :=
  repeat_char c (n - String.length s) ++ s.

(** [String(n)] and [n.toString()] for integers. *)
Definition string_of_Z (z : Z) : string := NilZero.string_of_int (Z.to_int z).
Definition string_of_nat (n : nat) : string :=
  NilZero.string_of_uint (Nat.to_uint n).

(** A truthy string is a non-empty one. *)
Definition truthy (s : string) : bool :=
  match s with
  | EmptyString => false
  | _ => true
  end.

End JS.

(** ** Outcomes *)

(** A JavaScript [Error] object, and the completion of a computation that
    may throw. *)
Record Error := mkError { message : string }.

Inductive Completion (A : Type) : Type :=
| Normal (a : A)
| Throw (e : Error).
Arguments Normal {A} a.
Arguments Throw {A} e.

(** The state of a promise. *)
Inductive Promise : Type :=
| Pending
| Fulfilled
| Rejected (e : Error).

(** ** The data of the plugin *)

Record S3UploaderSettings := mkSettings {
  accessKey : string;
  secretKey : string;
  region : string;
  bucket : string;
  folder : string;
  imageUrlPath : string;
  uploadOnDrag : bool;
  localUpload : bool;
  localUploadFolder : string;
  useCustomEndpoint : bool;
  customEndpoint : string;
  forcePathStyle : bool;
  useCustomImageUrl : bool;
  customImageUrl : string;
  uploadVideo : bool;
  uploadAudio : bool;
  uploadPdf : bool;
  bypassCors : bool
}.

Definition DEFAULT_SETTINGS : S3UploaderSettings :=
  {| accessKey := EmptyString; secretKey := EmptyString;
     region := EmptyString; bucket := EmptyString; folder := EmptyString;
     imageUrlPath := EmptyString; uploadOnDrag := true;
     localUpload := false; localUploadFolder := EmptyString;
     useCustomEndpoint := false; customEndpoint := EmptyString;
     forcePathStyle := false; useCustomImageUrl := false;
     customImageUrl := EmptyString; uploadVideo := false;
     uploadAudio := false; uploadPdf := false; bypassCors := false |}.

Definition set_imageUrlPath (s : S3UploaderSettings) (v : string)
  : S3UploaderSettings :=
  {| accessKey := accessKey s; secretKey := secretKey s; region := region s;
     bucket := bucket s; folder := folder s; imageUrlPath := v;
     uploadOnDrag := uploadOnDrag s; localUpload := localUpload s;
     localUploadFolder := localUploadFolder s;
     useCustomEndpoint := useCustomEndpoint s;
     customEndpoint := customEndpoint s; forcePathStyle := forcePathStyle s;
     useCustomImageUrl := useCustomImageUrl s;
     customImageUrl := customImageUrl s; uploadVideo := uploadVideo s;
     uploadAudio := uploadAudio s; uploadPdf := uploadPdf s;
     bypassCors := bypassCors s |}.

(** The frontmatter of the active note: every key is optional ([None] is
    [undefined]); the keys the plugin reads hold booleans and strings. *)
Record FrontMatterCache := mkFrontMatter {
  fm_localUpload : option bool;
  fm_uploadVideo : option bool;
  fm_uploadAudio : option bool;
  fm_uploadPdf : option bool;
  fm_uploadOnDrag : option bool;
  fm_folder : option string;
  fm_localUploadFolder : option string
}.

(** A pasted or dropped [File]: its name, its media type, its bytes. *)
Record File := mkFile {
  name : string;
  type : string;
  bytes : list Byte.byte
}.

(** What the plugin reads of a [Date]: [getMonth] counts from 0. *)
Record Date := mkDate {
  getFullYear : Z;
  getMonth : nat;
  getDate : nat
}.

(** ** The editor collaborator

    The text of the note and the selection, as offsets into the text.
    Positions are line and column pairs; a line ends at a line feed. *)

Record EditorPosition := mkPos { line : nat; ch : nat }.

Record Editor := mkEditor {
  doc : string;
  selFrom : nat;
  selTo : nat
}.

Definition getValue (ed : Editor) : string := doc ed.

Fixpoint lineStart (lines : list string) (n : nat) : nat :=
  match n, lines with
  | S k, l :: rest => String.length l + 1 + lineStart rest k
  | _, _ => 0
  end.

Definition posToOffset (s : string) (p : EditorPosition) : nat :=
  lineStart (JS.split JS.LF s) (line p) + ch p.

Definition replaceSelection (text : string) (ed : Editor) : Editor :=
  {| doc := JS.take (selFrom ed) (doc ed) ++ text ++ JS.drop (selTo ed) (doc ed);
     selFrom := selFrom ed + String.length text;
     selTo := selFrom ed + String.length text |}.

Definition setCursor (p : EditorPosition) (ed : Editor) : Editor :=
  {| doc := doc ed;
     selFrom := posToOffset (doc ed) p;
     selTo := posToOffset (doc ed) p |}.

(** Where an offset lands after the range from [a] to [b] became [n] code
    units. *)
Definition mapPos (a b n pos : nat) : nat :=
  if Nat.leb pos a then pos
  else if Nat.leb b pos then pos - (b - a) + n
  else a.

Definition replaceRange (text : string) (from to : EditorPosition)
  (ed : Editor) : Editor :=
  let a := posToOffset (doc ed) from in
  let b := posToOffset (doc ed) to in
  {| doc := JS.take a (doc ed) ++ text ++ JS.drop b (doc ed);
     selFrom := mapPos a b (String.length text) (selFrom ed);
     selTo := mapPos a b (String.length text) (selTo ed) |}.

(** ** [replaceText] (main.ts, lines 79-99) *)

(** The [for] loop over the lines, from line [i] on. *)
Fixpoint replaceText_loop (ed : Editor) (target replacement : string)
  (lines : list string) (i : nat) : Editor :=
  match lines with
  | [] => ed
  | l :: rest =>
      match JS.indexOf l target with
      | Some c =>
          let from := {| line := i; ch := c |} in
          let to := {| line := i; ch := c + String.length target |} in
          replaceRange replacement from to (setCursor from ed)
      | None => replaceText_loop ed target replacement rest (S i)
      end
  end.

Definition replaceText (ed : Editor) (target replacement : string) : Editor :=
  let target := JS.trim target in
  let lines := JS.split JS.LF (getValue ed) in
  replaceText_loop ed target replacement lines 0.

(** ** [getFileType] (main.ts, lines 101-113): [None] is [null] *)

Definition getFileType (file : File) (uploadVideo uploadAudio uploadPdf : bool)
  : option string :=
  let type := type file in
  if JS.startsWith type "video/" && uploadVideo then Some "video"
  else if JS.startsWith type "audio/" && uploadAudio then Some "audio"
  else if String.eqb type "application/pdf" && uploadPdf then Some "pdf"
  else if JS.startsWith type "image/" then Some "image"
  else None.

(** ** [getFolderPath] (main.ts, lines 115-135) *)

(** [v || d] for an optional string [v]. *)
Definition or_else (v : option string) (d : string) : string :=
  match v with
  | Some s => if JS.truthy s then s else d
  | None => d
  end.

(** The value of [baseFolder] when the [return] statement is reached. *)
Definition baseFolder (settings : S3UploaderSettings)
  (fm : option FrontMatterCache) (localUpload : bool) : string :=
  let baseFolder :=
    if localUpload then localUploadFolder settings else folder settings in
  let baseFolder := JS.trim baseFolder in
  match fm with
  | Some fm =>
      or_else (if localUpload then fm_localUploadFolder fm else fm_folder fm)
              baseFolder
  | None => baseFolder
  end.

Definition yearString (d : Date) : string := JS.string_of_Z (getFullYear d).
Definition monthString (d : Date) : string :=
  JS.padStart (JS.string_of_nat (getMonth d + 1)) 2 "0".
Definition dayString (d : Date) : string :=
  JS.padStart (JS.string_of_nat (getDate d)) 2 "0".

Definition getFolderPath (settings : S3UploaderSettings)
  (fm : option FrontMatterCache) (localUpload : bool) (currentDate : Date)
  : string :=
  JS.replace
    (JS.replace
       (JS.replace (baseFolder settings fm localUpload)
          "${year}" (yearString currentDate))
       "${month}" (monthString currentDate))
    "${day}" (dayString currentDate).

(** ** [wrapFileDependingOnType] (main.ts, lines 612-630) *)

Definition wrapFileDependingOnType (location type localBase : string)
  : Completion string :=
  let srcPrefix :=
    if JS.truthy localBase then "file://" ++ localBase ++ "/"
    else EmptyString in
  if String.eqb type "image" then
    Normal ("![image](" ++ location ++ ")")
  else if String.eqb type "video" then
    Normal ("<video src=" ++ JS.dq ++ srcPrefix ++ location ++ JS.dq
            ++ " controls />")
  else if String.eqb type "audio" then
    Normal ("<audio src=" ++ JS.dq ++ srcPrefix ++ location ++ JS.dq
            ++ " controls />")
  else if String.eqb type "pdf" then
    Normal ("<iframe frameborder=" ++ JS.dq ++ "0" ++ JS.dq
            ++ " border=" ++ JS.dq ++ "0" ++ JS.dq
            ++ " width=" ++ JS.dq ++ "100%" ++ JS.dq
            ++ " height=" ++ JS.dq ++ "800" ++ JS.dq
            ++ " src=" ++ JS.dq ++ location ++ JS.dq ++ "></iframe>")
  else Throw (mkError "Unknown file type").

(** ** [onload] (main.ts, lines 276-283): the public URL prefix *)

Definition apiEndpoint (settings : S3UploaderSettings) : string :=
  if useCustomEndpoint settings then customEndpoint settings
  else "https://s3." ++ region settings ++ ".amazonaws.com/".

Definition onload (settings : S3UploaderSettings) : S3UploaderSettings :=
  let apiEndpoint := apiEndpoint settings in
  set_imageUrlPath settings
    (if useCustomImageUrl settings then customImageUrl settings
     else if forcePathStyle settings then
       apiEndpoint ++ bucket settings ++ "/"
     else JS.replace apiEndpoint "://" ("://" ++ bucket settings ++ ".")).

(** ** The storage collaborators and [uploadFile] (main.ts, lines 137-168)

    [uploadFile] talks to the S3 client and to the vault.  What they
    answer is a parameter ([Host]); every request made is logged, in
    order, next to the state of the outside world. *)

Record PutObjectCommand := mkPut {
  Bucket : string;
  Key : string;
  Body : list Byte.byte;
  ContentType : string
}.

Inductive Call : Type :=
| CallSend (c : PutObjectCommand)
| CallExists (path : string)
| CallCreateFolder (path : string)
| CallWriteBinary (path : string) (data : list Byte.byte).

Record Host (W : Type) := mkHost {
  s3_send : PutObjectCommand -> W -> Completion unit * W;
  adapter_exists : string -> W -> Completion bool * W;
  vault_createFolder : string -> W -> Completion unit * W;
  adapter_writeBinary : string -> list Byte.byte -> W -> Completion unit * W
}.
Arguments s3_send {W} h _ _.
Arguments adapter_exists {W} h _ _.
Arguments vault_createFolder {W} h _ _.
Arguments adapter_writeBinary {W} h _ _ _.

(** An asynchronous computation over the world [W] and the log of calls;
    a rejected [await] aborts what follows it. *)
Definition Async (W A : Type) : Type :=
  W * list Call -> Completion A * (W * list Call).

Definition ret {W A : Type} (a : A) : Async W A :=
  fun st => (Normal a, st).

Definition bind {W A B : Type} (m : Async W A) (k : A -> Async W B)
  : Async W B :=
  fun st =>
    match m st with
    | (Normal a, st') => k a st'
    | (Throw e, st') => (Throw e, st')
    end.

Definition await {W A : Type} (c : Call) (op : W -> Completion A * W)
  : Async W A :=
  fun st =>
    let (r, w') := op (fst st) in
    (r, (w', (snd st ++ [c])%list)).

Notation "x <- m ;; k" := (bind m (fun x => k))
  (at level 61, m at next level, right associativity).

Definition uploadFile {W : Type} (host : Host W)
  (settings : S3UploaderSettings) (localUpload : bool) (file : File)
  (key : string) (buf : list Byte.byte) : Async W string :=
  let buffer := buf in
  if negb localUpload then
    let cmd := {| Bucket := bucket settings; Key := key; Body := buffer;
                  ContentType := type file |} in
    _ <- await (CallSend cmd) (s3_send host cmd) ;;
    ret (imageUrlPath settings ++ key)
  else
    let folderPath :=
      JS.substring key 0 (JS.js_index (JS.lastIndexOf key "/")) in
    present <- await (CallExists folderPath) (adapter_exists host folderPath) ;;
    _ <- (if negb present && JS.truthy folderPath then
            await (CallCreateFolder folderPath)
                  (vault_createFolder host folderPath)
          else ret tt) ;;
    _ <- await (CallWriteBinary key buffer)
               (adapter_writeBinary host key buffer) ;;
    ret (if JS.startsWith key "/" then JS.slice key 1 else key).

(** ** [pasteHandler] (main.ts, lines 170-267)

    The handler starts one asynchronous function per file.  Each runs
    until its next [await]; the runtime resumes one of them at a time, in
    any order.  An [Upload] is where one of them stands; an [Event] is
    what resumes it. *)

Record PasteEvent := mkEvent {
  defaultPrevented : bool;
  ev_type : string;
  clipboardFiles : option (list File);
  dataTransferFiles : option (list File)
}.

Inductive Upload : Type :=
| AwaitBytes (file : File) (thisType : string)
| AwaitUpload (file : File) (thisType placeholder key : string)
    (buf : list Byte.byte)
| Finished
| Failed (e : Error).

Inductive Event : Type :=
| BytesRead (i : nat) (now : Date)
| BytesFailed (i : nat) (e : Error)
| UploadSettled (i : nat) (r : Completion string)
| UserEdit (ed : Editor).

Record Batch := mkBatch {
  editor : Editor;
  uploads : list Upload;
  aggregate : Promise;
  notices : list string;
  prevented : bool
}.

Fixpoint update_nth {A : Type} (i : nat) (x : A) (l : list A) : list A :=
  match i, l with
  | 0, _ :: rest => x :: rest
  | S k, y :: rest => y :: update_nth k x rest
  | _, [] => []
  end.

(** [v !== undefined ? v : d]. *)
Definition overlay {A : Type} (v : option A) (d : A) : A :=
  match v with
  | Some x => x
  | None => d
  end.

(** [fm?.key]. *)
Definition fm_get {A : Type} (fm : option FrontMatterCache)
  (key : FrontMatterCache -> option A) : option A :=
  match fm with
  | Some f => key f
  | None => None
  end.

(** [Promise.all(uploads).then(() => new Notice(...))]: rejected with the
    first rejection, fulfilled once every promise is, and then the
    callback runs. *)
Definition isFulfilled (u : Upload) : bool :=
  match u with
  | Finished => true
  | _ => false
  end.

Fixpoint firstRejection (l : list Upload) : option Error :=
  match l with
  | [] => None
  | Failed e :: _ => Some e
  | _ :: rest => firstRejection rest
  end.

Definition promiseAll (b : Batch) : Batch :=
  match aggregate b with
  | Pending =>
      match firstRejection (uploads b) with
      | Some e =>
          {| editor := editor b; uploads := uploads b;
             aggregate := Rejected e; notices := notices b;
             prevented := prevented b |}
      | None =>
          if forallb isFulfilled (uploads b) then
            {| editor := editor b; uploads := uploads b;
               aggregate := Fulfilled;
               notices := (notices b ++ ["All files processed."])%list;
               prevented := prevented b |}
          else b
      end
  | _ => b
  end.

Section PasteHandler.

(** [crypto.createHash("md5").update(bytes).digest("hex")]. *)
Variable md5hex : list Byte.byte -> string.
Variable settings : S3UploaderSettings.
(** [this.app.workspace.getActiveFile()?.name] and the note's
    frontmatter. *)
Variable noteFile : option string.
Variable fm : option FrontMatterCache.

Definition localUpload_ : bool :=
  overlay (fm_get fm fm_localUpload) (localUpload settings).
Definition uploadVideo_ : bool :=
  overlay (fm_get fm fm_uploadVideo) (uploadVideo settings).
Definition uploadAudio_ : bool :=
  overlay (fm_get fm fm_uploadAudio) (uploadAudio settings).
Definition uploadPdf_ : bool :=
  overlay (fm_get fm fm_uploadPdf) (uploadPdf settings).
Definition uploadOnDrag_ : bool :=
  overlay (fm_get fm fm_uploadOnDrag) (uploadOnDrag settings).

Definition newFileName (file : File) (buf : list Byte.byte) : string :=
  md5hex buf ++ "." ++ JS.interpolate (JS.pop (JS.split "." (name file))).

Definition placeholder (newFileName : string) : string :=
  "![uploading...](" ++ newFileName ++ ")" ++ JS.nl.

Definition key (folder newFileName : string) : string :=
  if JS.truthy folder then folder ++ "/" ++ newFileName else newFileName.

(** The function runs up to [await file.arrayBuffer()]. *)
Definition launch (file : File) : Upload :=
  match getFileType file uploadVideo_ uploadAudio_ uploadPdf_ with
  | None => Finished
  | Some thisType => AwaitBytes file thisType
  end.

(** From the bytes to [await this.uploadFile(...)]. *)
Definition afterBytes (ed : Editor) (file : File) (thisType : string)
  (now : Date) : Editor * Upload :=
  let buf := bytes file in
  let newFileName := newFileName file buf in
  let placeholder := placeholder newFileName in
  let ed := replaceSelection placeholder ed in
  let folder := getFolderPath settings fm localUpload_ now in
  let key := key folder newFileName in
  (ed, AwaitUpload file thisType placeholder key buf).

(** The [try] and [catch] around the upload, resumed with its outcome
    ([console.error] leaves no trace here). *)
Definition afterUpload (ed : Editor) (thisType placeholder : string)
  (r : Completion string) : Editor * Upload :=
  let attempt :=
    match r with
    | Normal url =>
        match wrapFileDependingOnType url thisType
                (if localUpload_ then localUploadFolder settings
                 else EmptyString) with
        | Normal imgMarkdownText =>
            Normal (replaceText ed placeholder imgMarkdownText)
        | Throw e => Throw e
        end
    | Throw e => Throw e
    end in
  match attempt with
  | Normal ed' => (ed', Finished)
  | Throw error =>
      (replaceText ed placeholder
         ("Error uploading file: " ++ message error ++ JS.nl),
       Finished)
  end.

Definition resume (b : Batch) (i : nat) (r : Editor * Upload) : Batch :=
  promiseAll
    {| editor := fst r; uploads := update_nth i (snd r) (uploads b);
       aggregate := aggregate b; notices := notices b;
       prevented := prevented b |}.

Definition step (b : Batch) (ev : Event) : Batch :=
  match ev with
  | BytesRead i now =>
      match nth_error (uploads b) i with
      | Some (AwaitBytes file thisType) =>
          resume b i (afterBytes (editor b) file thisType now)
      | _ => b
      end
  | BytesFailed i e =>
      match nth_error (uploads b) i with
      | Some (AwaitBytes _ _) => resume b i (editor b, Failed e)
      | _ => b
      end
  | UploadSettled i r =>
      match nth_error (uploads b) i with
      | Some (AwaitUpload _ thisType placeholder _ _) =>
          resume b i (afterUpload (editor b) thisType placeholder r)
      | _ => b
      end
  | UserEdit ed =>
      {| editor := ed; uploads := uploads b; aggregate := aggregate b;
         notices := notices b; prevented := prevented b |}
  end.

Definition run (b : Batch) (evs : list Event) : Batch :=
  fold_left step evs b.

(** The files of the event. *)
Definition eventFiles (ev : PasteEvent) : list File :=
  if String.eqb (ev_type ev) "paste" then overlay (clipboardFiles ev) []
  else if String.eqb (ev_type ev) "drop" then
    overlay (dataTransferFiles ev) []
  else [].

(** The handler returned without touching anything. *)
Definition idle (ev : PasteEvent) (ed : Editor) : Batch :=
  {| editor := ed; uploads := []; aggregate := Fulfilled; notices := [];
     prevented := defaultPrevented ev |}.

Definition pasteHandler (ev : PasteEvent) (ed : Editor) : Batch :=
  if defaultPrevented ev then idle ev ed
  else if negb (JS.truthy (overlay noteFile EmptyString)) then idle ev ed
  else if String.eqb (ev_type ev) "drop" && negb uploadOnDrag_ then
    idle ev ed
  else
    let files := eventFiles ev in
    if Nat.ltb 0 (List.length files) then
      promiseAll
        {| editor := ed; uploads := map launch files; aggregate := Pending;
           notices := []; prevented := true |}
    else idle ev ed.

End PasteHandler.

(** ** The settings tab: the endpoint and image URL fields
    (main.ts, lines 519-531 and 564-575) *)

(** [value.match(/https?:\/\//)] as a truth value: one of the two
    schemes occurs somewhere in the value. *)
Definition matchesScheme (value : string) : bool :=
  match JS.indexOf value "http://" with
  | Some _ => true
  | None =>
      match JS.indexOf value "https://" with
      | Some _ => true
      | None => false
      end
  end.

(** [value.replace(/([^\/])$/, "$1/")]: a slash after a last character
    that is not a slash; the empty string has no last character. *)
Fixpoint forceSlash (value : string) : string :=
  match value with
  | EmptyString => EmptyString
  | String c rest =>
      match rest with
      | EmptyString =>
          if Ascii.eqb c "/" then value else String c (String "/" EmptyString)
      | String _ _ => String c (forceSlash rest)
      end
  end.

(** The value both [onChange] handlers store. *)
Definition urlOnChange (value : string) : string :=
  let value := if matchesScheme value then value else "https://" ++ value in
  let value := forceSlash value in
  JS.trim value.

Definition customEndpoint_onChange (settings : S3UploaderSettings)
  (value : string) : S3UploaderSettings :=
  {| accessKey := accessKey settings; secretKey := secretKey settings;
     region := region settings; bucket := bucket settings;
     folder := folder settings; imageUrlPath := imageUrlPath settings;
     uploadOnDrag := uploadOnDrag settings;
     localUpload := localUpload settings;
     localUploadFolder := localUploadFolder settings;
     useCustomEndpoint := useCustomEndpoint settings;
     customEndpoint := urlOnChange value;
     forcePathStyle := forcePathStyle settings;
     useCustomImageUrl := useCustomImageUrl settings;
     customImageUrl := customImageUrl settings;
     uploadVideo := uploadVideo settings; uploadAudio := uploadAudio settings;
     uploadPdf := uploadPdf settings; bypassCors := bypassCors settings |}.

Definition customImageUrl_onChange (settings : S3UploaderSettings)
  (value : string) : S3UploaderSettings :=
  {| accessKey := accessKey settings; secretKey := secretKey settings;
     region := region settings; bucket := bucket settings;
     folder := folder settings; imageUrlPath := imageUrlPath settings;
     uploadOnDrag := uploadOnDrag settings;
     localUpload := localUpload settings;
     localUploadFolder := localUploadFolder settings;
     useCustomEndpoint := useCustomEndpoint settings;
     customEndpoint := customEndpoint settings;
     forcePathStyle := forcePathStyle settings;
     useCustomImageUrl := useCustomImageUrl settings;
     customImageUrl := urlOnChange value;
     uploadVideo := uploadVideo settings; uploadAudio := uploadAudio settings;
     uploadPdf := uploadPdf settings; bypassCors := bypassCors settings |}.

(** ** [loadSettings] and [saveSettings] (main.ts, lines 308-318)

    The saved data is an object that holds some of the keys of the
    settings; [None] is a key the object does not have. *)

Record SavedData := mkSaved {
  sd_accessKey : option string;
  sd_secretKey : option string;
  sd_region : option string;
  sd_bucket : option string;
  sd_folder : option string;
  sd_imageUrlPath : option string;
  sd_uploadOnDrag : option bool;
  sd_localUpload : option bool;
  sd_localUploadFolder : option string;
  sd_useCustomEndpoint : option bool;
  sd_customEndpoint : option string;
  sd_forcePathStyle : option bool;
  sd_useCustomImageUrl : option bool;
  sd_customImageUrl : option string;
  sd_uploadVideo : option bool;
  sd_uploadAudio : option bool;
  sd_uploadPdf : option bool;
  sd_bypassCors : option bool
}.

(** [Object.assign({}, defaults, data)]: a key of [data] wins; [null]
    data (no file saved yet) assigns nothing. *)
Definition assign (defaults : S3UploaderSettings) (data : option SavedData)
  : S3UploaderSettings :=
  match data with
  | None => defaults
  | Some d =>
      {| accessKey := overlay (sd_accessKey d) (accessKey defaults);
         secretKey := overlay (sd_secretKey d) (secretKey defaults);
         region := overlay (sd_region d) (region defaults);
         bucket := overlay (sd_bucket d) (bucket defaults);
         folder := overlay (sd_folder d) (folder defaults);
         imageUrlPath := overlay (sd_imageUrlPath d) (imageUrlPath defaults);
         uploadOnDrag := overlay (sd_uploadOnDrag d) (uploadOnDrag defaults);
         localUpload := overlay (sd_localUpload d) (localUpload defaults);
         localUploadFolder :=
           overlay (sd_localUploadFolder d) (localUploadFolder defaults);
         useCustomEndpoint :=
           overlay (sd_useCustomEndpoint d) (useCustomEndpoint defaults);
         customEndpoint :=
           overlay (sd_customEndpoint d) (customEndpoint defaults);
         forcePathStyle :=
           overlay (sd_forcePathStyle d) (forcePathStyle defaults);
         useCustomImageUrl :=
           overlay (sd_useCustomImageUrl d) (useCustomImageUrl defaults);
         customImageUrl :=
           overlay (sd_customImageUrl d) (customImageUrl defaults);
         uploadVideo := overlay (sd_uploadVideo d) (uploadVideo defaults);
         uploadAudio := overlay (sd_uploadAudio d) (uploadAudio defaults);
         uploadPdf := overlay (sd_uploadPdf d) (uploadPdf defaults);
         bypassCors := overlay (sd_bypassCors d) (bypassCors defaults) |}
  end.

(** [loadSettings], given what [loadData] returns. *)
Definition loadSettings (data : option SavedData) : S3UploaderSettings :=
  assign DEFAULT_SETTINGS data.

(** [saveSettings]: what [saveData] is given, every key of the
    settings. *)
Definition saveSettings (settings : S3UploaderSettings) : SavedData :=
  {| sd_accessKey := Some (accessKey settings);
     sd_secretKey := Some (secretKey settings);
     sd_region := Some (region settings);
     sd_bucket := Some (bucket settings);
     sd_folder := Some (folder settings);
     sd_imageUrlPath := Some (imageUrlPath settings);
     sd_uploadOnDrag := Some (uploadOnDrag settings);
     sd_localUpload := Some (localUpload settings);
     sd_localUploadFolder := Some (localUploadFolder settings);
     sd_useCustomEndpoint := Some (useCustomEndpoint settings);
     sd_customEndpoint := Some (customEndpoint settings);
     sd_forcePathStyle := Some (forcePathStyle settings);
     sd_useCustomImageUrl := Some (useCustomImageUrl settings);
     sd_customImageUrl := Some (customImageUrl settings);
     sd_uploadVideo := Some (uploadVideo settings);
     sd_uploadAudio := Some (uploadAudio settings);
     sd_uploadPdf := Some (uploadPdf settings);
     sd_bypassCors := Some (bypassCors settings) |}.

(** ** [ObsHttpHandler.handle] and [bufferToArrayBuffer]
    (main.ts, lines 641-716)

    The request handed to [requestUrl] and the response built from its
    answer.  An object is the list of its entries; the race against the
    timeout is left out. *)

Module Http.

(** [c.toLowerCase()] in the 8-bit range: the letters A to Z, and the
    accented capitals from 192 to 222 but the multiplication sign. *)
Definition toLowerChar (c : ascii) : ascii :=
  let n := nat_of_ascii c in
  if (Nat.leb 65 n && Nat.leb n 90)
     || (Nat.leb 192 n && Nat.leb n 222 && negb (Nat.eqb n 215))
  then ascii_of_nat (n + 32)
  else c.

Fixpoint toLowerCase (s : string) : string :=
  match s with
  | EmptyString => EmptyString
  | String c s' => String (toLowerChar c) (toLowerCase s')
  end.

Definition Entries : Type := list (string * string).

(** [o[k] = v]: the value of an existing key is replaced where it
    stands, a new key comes last. *)
Fixpoint setProperty (k v : string) (o : Entries) : Entries :=
  match o with
  | [] => [(k, v)]
  | (k', v') :: rest =>
      if String.eqb k' k then (k', v) :: rest
      else (k', v') :: setProperty k v rest
  end.

(** [Object.fromEntries(l)]. *)
Definition fromEntries (l : Entries) : Entries :=
  fold_left (fun o kv => setProperty (fst kv) (snd kv) o) l [].

(** [o[k]]. *)
Fixpoint getProperty (o : Entries) (k : string) : option string :=
  match o with
  | [] => None
  | (k', v) :: rest => if String.eqb k' k then Some v else getProperty rest k
  end.

(** [buffer.slice(begin, end)] of an [ArrayBuffer]. *)
Definition arraySlice (buffer : list Byte.byte) (from to : nat)
  : list Byte.byte :=
  let from := Nat.min from (List.length buffer) in
  let to := Nat.min to (List.length buffer) in
  firstn (to - from) (skipn from buffer).

(** A body is a view on a buffer or something else. *)
Inductive Body : Type :=
| ViewBody (buffer : list Byte.byte) (byteOffset byteLength : nat)
| OtherBody (content : string).

Inductive Payload : Type :=
| BufferPayload (data : list Byte.byte)
| OtherPayload (content : string).

Definition bufferToArrayBuffer (buffer : list Byte.byte)
  (byteOffset byteLength : nat) : list Byte.byte :=
  arraySlice buffer byteOffset (byteOffset + byteLength).

Record HttpRequest (Q : Type) := mkRequest {
  protocol : string;
  hostname : string;
  port : option nat;
  path : string;
  query : option Q;
  method : string;
  headers : Entries;
  body : option Body
}.
Arguments protocol {Q} _.
Arguments hostname {Q} _.
Arguments port {Q} _.
Arguments path {Q} _.
Arguments query {Q} _.
Arguments method {Q} _.
Arguments headers {Q} _.
Arguments body {Q} _.

Record RequestUrlParam := mkParam {
  rq_url : string;
  rq_method : string;
  rq_body : option Payload;
  rq_headers : Entries;
  rq_contentType : option string
}.

Record RequestUrlResponse := mkAnswer {
  status : nat;
  rsp_headers : Entries;
  arrayBuffer : option (list Byte.byte)
}.

Record HttpResponse := mkResponse {
  statusCode : nat;
  response_headers : Entries;
  response_body : option (list (list Byte.byte))
}.

(** [["host", "content-length"].includes(key.toLowerCase())], negated. *)
Definition forwarded (kv : string * string) : bool :=
  negb (String.eqb (toLowerCase (fst kv)) "host"
        || String.eqb (toLowerCase (fst kv)) "content-length").

(** The part of [handle] before [requestUrl] is called. *)
Definition handle_request {Q : Type} (buildQueryString : Q -> string)
  (aborted : bool) (request : HttpRequest Q) : Completion RequestUrlParam :=
  if aborted then Throw (mkError "Request aborted")
  else
    let path :=
      match query request with
      | Some q => path request ++ "?" ++ buildQueryString q
      | None => path request
      end in
    let url :=
      protocol request ++ "//" ++ hostname request
      ++ match port request with
         | Some (S p) => ":" ++ JS.string_of_nat (S p)
         | _ => EmptyString
         end
      ++ path in
    let headers := fromEntries (filter forwarded (headers request)) in
    let body :=
      if String.eqb (method request) "GET"
         || String.eqb (method request) "HEAD"
      then None else body request in
    let contentType := getProperty headers "content-type" in
    let transformedBody :=
      match body with
      | Some (ViewBody buffer off len) =>
          Some (BufferPayload (bufferToArrayBuffer buffer off len))
      | Some (OtherBody content) => Some (OtherPayload content)
      | None => None
      end in
    Normal {| rq_url := url; rq_method := method request;
              rq_body := transformedBody; rq_headers := headers;
              rq_contentType := contentType |}.

(** The response made of the answer of [requestUrl]: the body is a
    stream of one chunk. *)
Definition handle_response (rsp : RequestUrlResponse) : HttpResponse :=
  {| statusCode := status rsp;
     response_headers :=
       fromEntries
         (map (fun kv => (toLowerCase (fst kv), snd kv)) (rsp_headers rsp));
     response_body :=
       match arrayBuffer rsp with
       | Some data => Some [data]
       | None => None
       end |}.

End Http.

(** ** Notions used to state the properties *)

(** [t] occurs in [s] at position [n], and nowhere before. *)
Definition first_at (s t : string) (n : nat) : Prop :=
  (exists a b, s = a ++ t ++ b /\ String.length a = n) /\
  (forall a b, s = a ++ t ++ b -> n <= String.length a).

(** [t] occurs nowhere in [s]. *)
Definition absent (s t : string) : Prop :=
  forall a b, s <> a ++ t ++ b.

(** The lines before a given one, each with its line feed. *)
Fixpoint unlines (l : list string) : string :=
  match l with
  | [] => EmptyString
  | x :: rest => x ++ JS.nl ++ unlines rest
  end.

(** What follows a line in the text. *)
Definition lineRest (after : list string) : string :=
  match after with
  | [] => EmptyString
  | _ => JS.nl ++ JS.join JS.nl after
  end.



(** The tokens of a folder template. *)
Definition tokens : list string := ["${year}"; "${month}"; "${day}"].


(** Every character of [s] satisfies [P]. *)
Fixpoint all_chars (P : ascii -> bool) (s : string) : bool :=
  match s with
  | EmptyString => true
  | String c s' => P c && all_chars P s'
  end.

(** The characters of a decimal number: the digits and the minus sign. *)
Definition numeric (c : ascii) : bool :=
  let n := nat_of_ascii c in
  (Nat.leb 48 n && Nat.leb n 57) || Nat.eqb n 45.



(** The value of a [src] attribute: the text between double quotes. *)
Definition attr (attribute value : string) : string :=
  attribute ++ "=" ++ JS.dq ++ value ++ JS.dq.

(** The notices of a batch that has shown its one notice. *)
Definition ALL_PROCESSED : list string := ["All files processed."].

(** The promise of an upload is settled. *)
Definition isSettled (u : Upload) : bool :=
  match u with
  | Finished | Failed _ => true
  | _ => false
  end.

(** The upload an event resumes, if any. *)
Definition eventUpload (ev : Event) : option nat :=
  match ev with
  | BytesRead i _ | BytesFailed i _ | UploadSettled i _ => Some i
  | UserEdit _ => None
  end.


(** The handler gets past its guards and finds files. *)
Definition startsBatch (settings : S3UploaderSettings)
  (noteFile : option string) (fm : option FrontMatterCache)
  (ev : PasteEvent) : Prop :=
  defaultPrevented ev = false /\
  JS.truthy (overlay noteFile EmptyString) = true /\
  String.eqb (ev_type ev) "drop" && negb (uploadOnDrag_ settings fm) = false /\
  eventFiles ev <> [].


(** What the handler holds for an upload that waits: the kind is the
    classifier's answer for the file and, once the upload is dispatched,
    the bytes, the placeholder and the key come from the file and from
    the folder resolved at some date. *)
Definition derived (md5hex : list Byte.byte -> string)
  (settings : S3UploaderSettings) (fm : option FrontMatterCache)
  (u : Upload) : Prop :=
  match u with
  | AwaitBytes file thisType =>
      getFileType file (uploadVideo_ settings fm) (uploadAudio_ settings fm)
        (uploadPdf_ settings fm) = Some thisType
  | AwaitUpload file thisType ph k buf =>
      getFileType file (uploadVideo_ settings fm) (uploadAudio_ settings fm)
        (uploadPdf_ settings fm) = Some thisType /\
      buf = bytes file /\
      ph = placeholder (newFileName md5hex file (bytes file)) /\
      exists now,
        k = key (getFolderPath settings fm (localUpload_ settings fm) now)
              (newFileName md5hex file (bytes file))
  | Finished | Failed _ => True
  end.

(** The prefix [wrapFileDependingOnType] puts before a local media
    source. *)
Definition srcPrefix (localBase : string) : string :=
  if JS.truthy localBase then "file://" ++ localBase ++ "/" else EmptyString.

(** One of the two schemes occurs in the value. *)
Definition has_scheme (value : string) : Prop :=
  (exists a b, value = a ++ "http://" ++ b) \/
  (exists a b, value = a ++ "https://" ++ b).

(** The value given last to the key [k] in a list of entries, or [acc]
    when no entry has that key. *)
Definition lastValue (k : string) (l : Http.Entries) (acc : option string)
  : option string :=
  fold_left
    (fun acc kv => if String.eqb (fst kv) k then Some (snd kv) else acc)
    l acc.

(** ** Sample data *)



(** A folder template that holds [${year}] twice. *)
Definition repeated_config : S3UploaderSettings :=
  {| accessKey := "AK"; secretKey := "SK"; region := "eu-west-1";
     bucket := "b"; folder := "${year}/${year}/${month}/${day}";
     imageUrlPath := EmptyString; uploadOnDrag := true; localUpload := false;
     localUploadFolder := EmptyString; useCustomEndpoint := false;
     customEndpoint := EmptyString; forcePathStyle := false;
     useCustomImageUrl := false; customImageUrl := EmptyString;
     uploadVideo := false; uploadAudio := false; uploadPdf := false;
     bypassCors := false |}.


(** A vault in which nothing exists yet and every request succeeds. *)
Definition empty_vault : Host unit :=
  {| s3_send := fun _ w => (Normal tt, w);
     adapter_exists := fun _ w => (Normal false, w);
     vault_createFolder := fun _ w => (Normal tt, w);
     adapter_writeBinary := fun _ _ w => (Normal tt, w) |}.

(** A stand-in for the digest: the MD5 of the one-byte contents used
    below. *)
Definition patch_digest (buf : list Byte.byte) : string :=
  match buf with
  | [Byte.x62] => "92eb5ffee6ae2fec3ad71c777531578f"
  | _ => "0cc175b9c0f1b6a831c399e269772661"
  end.

Definition patch_file : File := mkFile "a.png" "image/png" [Byte.x61].

(** A note in which the placeholder of [patch_file] stands between two
    lines. *)
Definition patch_editor : Editor :=
  {| doc := "Intro" ++ JS.nl
            ++ placeholder (newFileName patch_digest patch_file [Byte.x61])
            ++ "Outro";
     selFrom := 0; selTo := 0 |}.

Definition blank_editor : Editor :=
  {| doc := EmptyString; selFrom := 0; selTo := 0 |}.

(** A paste of an image, a video and a text file, with video uploads
    on; the video upload fails, the user edits the note, the image upload
    succeeds. *)
Definition mixed_settings : S3UploaderSettings :=
  {| accessKey := "AK"; secretKey := "SK"; region := "eu-west-1";
     bucket := "b"; folder := EmptyString;
     imageUrlPath := "https://b.s3.eu-west-1.amazonaws.com/";
     uploadOnDrag := true; localUpload := false;
     localUploadFolder := EmptyString; useCustomEndpoint := false;
     customEndpoint := EmptyString; forcePathStyle := false;
     useCustomImageUrl := false; customImageUrl := EmptyString;
     uploadVideo := true; uploadAudio := false; uploadPdf := false;
     bypassCors := false |}.

Definition mixed_event : PasteEvent :=
  {| defaultPrevented := false; ev_type := "paste";
     clipboardFiles :=
       Some [patch_file; mkFile "clip.mp4" "video/mp4" [Byte.x62];
             mkFile "notes.txt" "text/plain" [Byte.x63]];
     dataTransferFiles := None |}.

Definition mixed_schedule : list Event :=
  [BytesRead 0 (mkDate 2024 2 7);
   BytesRead 1 (mkDate 2024 2 7);
   UploadSettled 1 (Throw (mkError "Network Failure"));
   UserEdit {| doc := "Seen. "
                      ++ placeholder "0cc175b9c0f1b6a831c399e269772661.png"
                      ++ "Error uploading file: Network Failure"
                      ++ JS.nl ++ JS.nl;
               selFrom := 0; selTo := 0 |};
   UploadSettled 0
     (Normal "https://b.s3.eu-west-1.amazonaws.com/0cc175b9c0f1b6a831c399e269772661.png")].

(** A vault in which every folder exists already. *)
Definition full_vault : Host unit :=
  {| s3_send := fun _ w => (Normal tt, w);
     adapter_exists := fun _ w => (Normal true, w);
     vault_createFolder := fun _ w => (Throw (mkError "Folder already exists."), w);
     adapter_writeBinary := fun _ _ w => (Normal tt, w) |}.

(** A paste of a text file alone, and the mixed paste once the bytes of
    its first file are read. *)
Definition unsupported_event : PasteEvent :=
  {| defaultPrevented := false; ev_type := "paste";
     clipboardFiles := Some [mkFile "notes.txt" "text/plain" [Byte.x63]];
     dataTransferFiles := None |}.

Definition first_read : list Event := [BytesRead 0 (mkDate 2024 2 7)].

(** Settings for local uploads of media under [media]. *)
Definition local_settings : S3UploaderSettings :=
  {| accessKey := EmptyString; secretKey := EmptyString;
     region := EmptyString; bucket := EmptyString; folder := EmptyString;
     imageUrlPath := EmptyString; uploadOnDrag := true; localUpload := true;
     localUploadFolder := "media"; useCustomEndpoint := false;
     customEndpoint := EmptyString; forcePathStyle := false;
     useCustomImageUrl := false; customImageUrl := EmptyString;
     uploadVideo := true; uploadAudio := true; uploadPdf := true;
     bypassCors := false |}.

(** A batch in which one video waits for its local write. *)
Definition local_batch : Batch :=
  {| editor := {| doc := placeholder "92eb5ffee6ae2fec3ad71c777531578f.mp4";
                  selFrom := 0; selTo := 0 |};
     uploads := [AwaitUpload (mkFile "clip.mp4" "video/mp4" [Byte.x62])
                   "video"
                   (placeholder "92eb5ffee6ae2fec3ad71c777531578f.mp4")
                   "media/92eb5ffee6ae2fec3ad71c777531578f.mp4" [Byte.x62]];
     aggregate := Pending; notices := []; prevented := true |}.

(* ================================================================== *)
(** * Part II: properties                                              *)
(* ================================================================== *)

(** ** The primitives on small inputs *)

Example split_name : JS.split "." "a.tar.gz" = ["a"; "tar"; "gz"].
Proof. reflexivity. Qed.

Example split_empty : JS.split JS.LF EmptyString = [EmptyString].
Proof. reflexivity. Qed.

Example pop_name :
  JS.pop (JS.split "." "a.tar.gz") = Some "gz" /\
  JS.pop (JS.split "." "README") = Some "README" /\
  JS.pop (JS.split "." "trailing.") = Some EmptyString.
Proof. repeat split; reflexivity. Qed.

Example trim_both : JS.trim ("  a b " ++ JS.nl) = "a b".
Proof. reflexivity. Qed.

Example replace_first_only : JS.replace "a-b-c" "-" "+" = "a+b-c".
Proof. reflexivity. Qed.

Example replace_patterns : JS.replace "abc" "b" "[$&$&$$$1]" = "a[bb$$1]c".
Proof. reflexivity. Qed.

Example index_both :
  JS.indexOf "a/b/c" "/" = Some 1 /\ JS.lastIndexOf "a/b/c" "/" = Some 3 /\
  JS.indexOf "abc" "/" = None /\ JS.indexOf "abc" EmptyString = Some 0.
Proof. repeat split; reflexivity. Qed.

Example substring_folder :
  JS.substring "2024/03/x.png" 0 (JS.js_index (JS.lastIndexOf "2024/03/x.png" "/"))
  = "2024/03" /\
  JS.substring "x.png" 0 (JS.js_index (JS.lastIndexOf "x.png" "/"))
  = EmptyString.
Proof. split; reflexivity. Qed.

Example numbers :
  JS.string_of_Z 2024 = "2024" /\ JS.string_of_Z 0 = "0" /\
  JS.string_of_Z (-5) = "-5" /\
  JS.padStart (JS.string_of_nat 7) 2 "0" = "07" /\
  JS.padStart (JS.string_of_nat 12) 2 "0" = "12".
Proof. repeat split; reflexivity. Qed.

Example folder_of_date :
  getFolderPath repeated_config
    (Some {| fm_localUpload := None; fm_uploadVideo := None;
             fm_uploadAudio := None; fm_uploadPdf := None;
             fm_uploadOnDrag := None;
             fm_folder := Some "img/${year}/${month}/${day}";
             fm_localUploadFolder := None |})
    false (mkDate 2024 2 7)
  = "img/2024/03/07".
Proof. reflexivity. Qed.

Example replaceText_second_line :
  getValue (replaceText
              {| doc := "one" ++ JS.nl ++ "two x two x" ++ JS.nl ++ "x";
                 selFrom := 0; selTo := 0 |}
              (" x" ++ JS.nl) "[y]")
  = "one" ++ JS.nl ++ "two [y] two x" ++ JS.nl ++ "x".
Proof. reflexivity. Qed.

Example replaceText_two_lines :
  replaceText {| doc := "a" ++ JS.nl ++ "b"; selFrom := 0; selTo := 0 |}
              ("a" ++ JS.nl ++ "b") "c"
  = {| doc := "a" ++ JS.nl ++ "b"; selFrom := 0; selTo := 0 |}.
Proof. reflexivity. Qed.

(** ** Strings: append, [take] and [drop] *)

Section StringFacts.

Lemma append_nil_r (s : string) : s ++ EmptyString = s.
Proof. induction s as [|c s IH]; simpl; [reflexivity | now rewrite IH]. Qed.

Lemma append_assoc (a b c : string) : (a ++ b) ++ c = a ++ (b ++ c).
Proof. induction a as [|x a IH]; simpl; [reflexivity | now rewrite IH]. Qed.

Lemma length_append (a b : string) :
  String.length (a ++ b) = String.length a + String.length b.
Proof. induction a as [|x a IH]; simpl; [reflexivity | now rewrite IH]. Qed.

Lemma append_inv_head (a b c : string) : a ++ b = a ++ c -> b = c.
Proof.
  induction a as [|x a IH]; simpl; intros H; [assumption|].
  injection H as H. auto.
Qed.

Lemma take_app (a b : string) : JS.take (String.length a) (a ++ b) = a.
Proof. induction a as [|x a IH]; simpl; [now destruct b | now rewrite IH]. Qed.

Lemma drop_app (a b : string) : JS.drop (String.length a) (a ++ b) = b.
Proof. induction a as [|x a IH]; simpl; [now destruct b | assumption]. Qed.

Lemma drop_drop (n m : nat) (s : string) :
  JS.drop (n + m) s = JS.drop m (JS.drop n s).
Proof.
  revert s; induction n as [|n IH]; intros s; simpl.
  - now destruct m, s.
  - destruct s as [|c s]; simpl; [now destruct m | apply IH].
Qed.

Lemma take_drop (n : nat) (s : string) : JS.take n s ++ JS.drop n s = s.
Proof.
  revert s; induction n as [|n IH]; intros [|c s]; simpl; try reflexivity.
  now rewrite IH.
Qed.

Lemma take_all (n : nat) (s : string) :
  String.length s <= n -> JS.take n s = s.
Proof.
  revert n; induction s as [|c s IH]; intros [|n] H; simpl in *;
    try reflexivity; try lia.
  rewrite IH; [reflexivity | lia].
Qed.

(** Two ways of cutting one string: the shorter head is a prefix of the
    longer one. *)
Lemma append_eq_split (a b c d : string) :
  a ++ b = c ++ d -> String.length a <= String.length c ->
  exists m, c = a ++ m /\ b = m ++ d.
Proof.
  revert c; induction a as [|x a IH]; intros c H Hl; simpl in *.
  - exists c. auto.
  - destruct c as [|y c]; simpl in *; [lia|].
    injection H as -> H.
    destruct (IH c H) as (m & -> & ->); [lia|].
    exists m. auto.
Qed.

End StringFacts.

(** ** Occurrences: [startsWith] and [indexOf] *)

Section Occurrences.

Lemma startsWith_app (p r : string) : JS.startsWith (p ++ r) p = true.
Proof.
  induction p as [|c p IH]; simpl; [reflexivity|].
  now rewrite Ascii.eqb_refl.
Qed.

Lemma startsWith_inv (s p : string) :
  JS.startsWith s p = true -> exists r, s = p ++ r.
Proof.
  revert s; induction p as [|c p IH]; intros s H; simpl in *.
  - now exists s.
  - destruct s as [|d s]; [discriminate|].
    apply andb_true_iff in H as [Hc Hs].
    apply Ascii.eqb_eq in Hc as ->.
    destruct (IH s Hs) as [r ->]. now exists r.
Qed.

Lemma startsWith_false (s p : string) :
  JS.startsWith s p = false -> forall r, s <> p ++ r.
Proof.
  intros H r ->. now rewrite startsWith_app in H.
Qed.

Lemma indexOf_Some (s t : string) (n : nat) :
  JS.indexOf s t = Some n -> first_at s t n.
Proof.
  revert n; induction s as [|c s IH]; intros n; simpl.
  - destruct (JS.startsWith EmptyString t) eqn:E; [|discriminate].
    intros [= <-]. split; [|intros; lia].
    apply startsWith_inv in E as [r E]. now exists EmptyString, r.
  - destruct (JS.startsWith (String c s) t) eqn:E.
    + intros [= <-]. split; [|intros; lia].
      apply startsWith_inv in E as [r E]. now exists EmptyString, r.
    + destruct (JS.indexOf s t) as [k|] eqn:Ek; [|discriminate].
      intros [= <-]. destruct (IH k eq_refl) as [(a & b & -> & Hl) Hmin].
      split.
      * exists (String c a), b. simpl. auto.
      * intros [|x a'] b' H; simpl in H.
        -- exfalso. apply (startsWith_false _ _ E b'). exact H.
        -- injection H as _ H. apply Hmin in H. simpl. lia.
Qed.

Lemma indexOf_None (s t : string) : JS.indexOf s t = None -> absent s t.
Proof.
  induction s as [|c s IH]; simpl.
  - destruct (JS.startsWith EmptyString t) eqn:E; [discriminate|].
    intros _ [|x a] b H; simpl in H; [|discriminate].
    apply (startsWith_false _ _ E b). exact H.
  - destruct (JS.startsWith (String c s) t) eqn:E; [discriminate|].
    destruct (JS.indexOf s t) eqn:Ek; [discriminate|].
    intros _ [|x a] b H; simpl in H.
    + apply (startsWith_false _ _ E b). exact H.
    + injection H as _ H. now apply (IH eq_refl a b).
Qed.

Lemma first_at_indexOf (s t : string) (n : nat) :
  first_at s t n -> JS.indexOf s t = Some n.
Proof.
  intros [(a & b & E & Hl) Hmin].
  destruct (JS.indexOf s t) as [k|] eqn:Ek.
  - apply indexOf_Some in Ek as [(a' & b' & E' & Hl') Hmin'].
    f_equal. apply Hmin in E'. apply Hmin' in E. lia.
  - apply indexOf_None in Ek. now apply Ek in E.
Qed.

Lemma absent_indexOf (s t : string) : absent s t -> JS.indexOf s t = None.
Proof.
  intros H. destruct (JS.indexOf s t) as [k|] eqn:Ek; [|reflexivity].
  apply indexOf_Some in Ek as [(a & b & E & _) _]. now apply H in E.
Qed.

(** The occurrence found by [indexOf], as a cut of the string. *)
Lemma indexOf_cut (s t : string) (n : nat) :
  JS.indexOf s t = Some n ->
  s = JS.take n s ++ t ++ JS.drop (n + String.length t) s /\
  String.length (JS.take n s) = n.
Proof.
  intros H. apply indexOf_Some in H as [(a & b & -> & <-) _].
  rewrite take_app, drop_drop, drop_app, drop_app. auto.
Qed.

(** A character absent from two strings is absent from their
    concatenation. *)
Lemma absent_char_app (c : ascii) (a b : string) :
  absent a (String c EmptyString) -> absent b (String c EmptyString) ->
  absent (a ++ b) (String c EmptyString).
Proof.
  intros Ha Hb x y E. simpl in E.
  destruct (Nat.le_gt_cases (String.length a) (String.length x)) as [Hl|Hl].
  - destruct (append_eq_split _ _ _ _ E Hl) as (m & -> & ->).
    now apply (Hb m y).
  - symmetry in E.
    destruct (append_eq_split x _ a _ E) as (m & Ea & Em); [lia|].
    destruct m as [|d m]; simpl in Em.
    + rewrite Ea, append_nil_r in Hl. lia.
    + injection Em as <- _. now apply (Ha x m).
Qed.

End Occurrences.

(** ** FileClassifier: [getFileType] *)

Section Classifier.

(** A media type has at most one of the three prefixes. *)
Lemma prefixes_disjoint (t : string) :
  (JS.startsWith t "video/" = true -> JS.startsWith t "audio/" = false
     /\ JS.startsWith t "image/" = false /\ t <> "application/pdf") /\
  (JS.startsWith t "audio/" = true -> JS.startsWith t "video/" = false
     /\ JS.startsWith t "image/" = false /\ t <> "application/pdf") /\
  (JS.startsWith t "image/" = true -> t <> "application/pdf").
Proof.
  split; [|split]; intros H; apply startsWith_inv in H as [r ->];
    repeat split; try reflexivity; discriminate.
Qed.

(** C7. The classifier checks its four rules in order, the first match
    winning: prefix [video/] with [uploadVideo] gives video, prefix
    [audio/] with [uploadAudio] gives audio, exactly [application/pdf]
    with [uploadPdf] gives pdf, prefix [image/] gives image whatever the
    flags, and anything else gives [null]. *)
Theorem getFileType_rules (file : File) (uv ua up : bool) :
  (JS.startsWith (type file) "video/" = true -> uv = true ->
     getFileType file uv ua up = Some "video") /\
  (JS.startsWith (type file) "audio/" = true -> ua = true ->
     getFileType file uv ua up = Some "audio") /\
  (type file = "application/pdf" -> up = true ->
     getFileType file uv ua up = Some "pdf") /\
  (JS.startsWith (type file) "image/" = true ->
     getFileType file uv ua up = Some "image") /\
  (JS.startsWith (type file) "video/" && uv = false ->
   JS.startsWith (type file) "audio/" && ua = false ->
   String.eqb (type file) "application/pdf" && up = false ->
   JS.startsWith (type file) "image/" = false ->
     getFileType file uv ua up = None) /\
  (forall n b, getFileType (mkFile n "video/mp4" b) false ua up = None) /\
  (forall n b, getFileType (mkFile n "video/mp4" b) true ua up = Some "video") /\
  (forall n b, getFileType (mkFile n "image/png" b) uv ua up = Some "image").
Proof.
  destruct (prefixes_disjoint (type file)) as (Hv & Ha & Hi).
  unfold getFileType; cbv zeta.
  split; [|split; [|split; [|split; [|split; [|split; [|split]]]]]].
  - intros H ->. now rewrite H.
  - intros H ->. destruct (Ha H) as (-> & _ & _). now rewrite H.
  - intros H ->. rewrite H. reflexivity.
  - intros H.
    destruct (JS.startsWith (type file) "video/") eqn:E1.
    { destruct (Hv eq_refl) as (_ & E & _). congruence. }
    destruct (JS.startsWith (type file) "audio/") eqn:E2.
    { destruct (Ha eq_refl) as (_ & E & _). congruence. }
    destruct (String.eqb_spec (type file) "application/pdf") as [E3|E3].
    { now apply Hi in H. }
    cbn [andb]. now rewrite H.
  - intros -> -> -> ->. reflexivity.
  - intros n b. simpl. now destruct ua, up.
  - intros n b. reflexivity.
  - intros n b. simpl. now destruct uv, ua, up.
Qed.

End Classifier.

(** ** EmbedRenderer: [wrapFileDependingOnType] *)

Section Renderer.

Local Ltac assoc := repeat (rewrite append_assoc; simpl).

(** C8. An image is rendered as [![image](location)]; video and audio as
    a tag whose [src] is the location, prefixed with [file://localBase/]
    exactly when the local base is non-empty; a pdf as an [iframe] with
    [src] the location, width 100% and height 800; any other kind makes
    the renderer throw. *)
Theorem wrapFileDependingOnType_renders (location localBase : string) :
  wrapFileDependingOnType location "image" localBase
    = Normal ("![image](" ++ location ++ ")") /\
  (forall tag, tag = "video" \/ tag = "audio" ->
     (localBase <> EmptyString ->
        wrapFileDependingOnType location tag localBase
          = Normal ("<" ++ tag ++ " "
                    ++ attr "src" ("file://" ++ localBase ++ "/" ++ location)
                    ++ " controls />")) /\
     (localBase = EmptyString ->
        wrapFileDependingOnType location tag localBase
          = Normal ("<" ++ tag ++ " " ++ attr "src" location
                    ++ " controls />"))) /\
  wrapFileDependingOnType location "pdf" localBase
    = Normal ("<iframe " ++ attr "frameborder" "0" ++ " " ++ attr "border" "0"
              ++ " " ++ attr "width" "100%" ++ " " ++ attr "height" "800"
              ++ " " ++ attr "src" location ++ "></iframe>") /\
  (forall kind, kind <> "image" -> kind <> "video" -> kind <> "audio" ->
     kind <> "pdf" ->
     wrapFileDependingOnType location kind localBase
       = Throw (mkError "Unknown file type")).
Proof.
  split; [|split; [|split]].
  - reflexivity.
  - intros tag H. split.
    + intros Hne. destruct localBase as [|c l]; [congruence|].
      destruct H as [-> | ->]; unfold wrapFileDependingOnType, attr; simpl;
        f_equal; assoc; reflexivity.
    + intros ->.
      destruct H as [-> | ->]; unfold wrapFileDependingOnType, attr; simpl;
        f_equal; assoc; reflexivity.
  - unfold wrapFileDependingOnType, attr, JS.dq; simpl.
    f_equal; assoc; reflexivity.
  - intros kind H1 H2 H3 H4. unfold wrapFileDependingOnType.
    apply String.eqb_neq in H1, H2, H3, H4.
    now rewrite H1, H2, H3, H4.
Qed.

End Renderer.

(** ** [replace] with a string pattern *)

Section Replace.

Lemma absent_tail (c : ascii) (s t : string) :
  absent (String c s) t -> absent s t.
Proof. intros H a b ->. now apply (H (String c a) b). Qed.

Lemma absent_head (c : ascii) (s : string) :
  absent (String c s) (String c EmptyString) -> False.
Proof. intros H. now apply (H EmptyString s). Qed.

(** A replacement text without dollars stands for itself. *)
Lemma getSubstitution_literal (m b a repl : string) :
  absent repl "$" -> JS.getSubstitution m b a repl = repl.
Proof.
  induction repl as [|c rest IH]; intros H; [reflexivity|].
  cbn [JS.getSubstitution].
  destruct (Ascii.eqb_spec c "$") as [->|Hc].
  - now apply absent_head in H.
  - now rewrite IH by (now apply absent_tail in H).
Qed.

Lemma replace_first (a pat b repl : string) :
  first_at (a ++ pat ++ b) pat (String.length a) -> absent repl "$" ->
  JS.replace (a ++ pat ++ b) pat repl = a ++ repl ++ b.
Proof.
  intros H Hd. unfold JS.replace.
  rewrite (first_at_indexOf _ _ _ H). cbv zeta.
  rewrite getSubstitution_literal by assumption.
  now rewrite take_app, drop_drop, drop_app, drop_app.
Qed.

Lemma replace_absent (s pat repl : string) :
  absent s pat -> JS.replace s pat repl = s.
Proof. intros H. unfold JS.replace. now rewrite (absent_indexOf _ _ H). Qed.

End Replace.

(** ** EndpointResolver: the public URL prefix set by [onload] *)

Section EndpointResolver.




End EndpointResolver.

(** ** KeyDeriver: the derived file name *)

Section DeriveName.

Variable md5hex : list Byte.byte -> string.

Lemma split_not_nil (c : ascii) (s : string) : JS.split c s <> [].
Proof.
  induction s as [|d s IH]; simpl; [discriminate|].
  destruct (Ascii.eqb d c); [discriminate|].
  destruct (JS.split c s); [contradiction | discriminate].
Qed.








End DeriveName.

(** ** UploadOrchestrator: [uploadFile] in local mode *)

Section LocalUpload.

Lemma absent_startsWith (s t : string) :
  absent s t -> JS.startsWith s t = false.
Proof.
  intros H. destruct (JS.startsWith s t) eqn:E; [|reflexivity].
  apply startsWith_inv in E as [r E]. now apply (H EmptyString r) in E.
Qed.

Lemma absent_lastIndexOf (s t : string) :
  absent s t -> JS.lastIndexOf s t = None.
Proof.
  induction s as [|c s IH]; intros H; simpl.
  - now rewrite (absent_startsWith _ _ H).
  - rewrite IH by (now apply absent_tail in H).
    now rewrite (absent_startsWith _ _ H).
Qed.

(** The folder of a key without a slash is the empty path. *)
Lemma folderPath_root (key : string) :
  absent key "/" ->
  JS.substring key 0 (JS.js_index (JS.lastIndexOf key "/")) = EmptyString.
Proof.
  intros H. rewrite (absent_lastIndexOf _ _ H). reflexivity.
Qed.

Context {W : Type} (host : Host W) (settings : S3UploaderSettings).

(** C10. In local mode, for a key without a slash, [uploadFile] never
    asks for a folder to be created: it asks whether the empty path
    exists and then writes the bytes under the key itself; the path it
    returns is the key, which does not start with a slash. *)
Theorem uploadFile_local_root (file : File) (key : string)
  (buf : list Byte.byte) (w : W) (Hkey : absent key "/") :
  let out := uploadFile host settings true file key buf (w, []) in
  let log := snd (snd out) in
  (forall path, ~ In (CallCreateFolder path) log) /\
  (forall present w', adapter_exists host EmptyString w = (Normal present, w') ->
     log = [CallExists EmptyString; CallWriteBinary key buf]) /\
  (forall path, fst out = Normal path ->
     path = key /\ JS.startsWith path "/" = false /\
     log = [CallExists EmptyString; CallWriteBinary key buf]).
Proof.
  cbv zeta. unfold uploadFile. cbn [negb].
  rewrite (folderPath_root _ Hkey), (absent_startsWith _ _ Hkey).
  unfold bind, await, ret. cbn [fst snd JS.truthy andb app].
  destruct (adapter_exists host EmptyString w) as [[present|e] w1] eqn:E1.
  - rewrite andb_false_r. cbn beta iota zeta delta [fst snd app].
    destruct (adapter_writeBinary host key buf w1) as [[[]|e] w2] eqn:E2;
      cbn [fst snd app].
    + split; [|split].
      * intros path H; simpl in H; intuition discriminate.
      * reflexivity.
      * intros path [= <-]. auto using absent_startsWith.
    + split; [|split].
      * intros path H; simpl in H; intuition discriminate.
      * reflexivity.
      * intros path H. discriminate H.
  - cbn [fst snd app]. split; [|split].
    + intros path H; simpl in H; intuition discriminate.
    + intros present w' H. discriminate H.
    + intros path H. discriminate H.
Qed.

End LocalUpload.

(** The theorem at work: a key without a slash, written at the root of
    an empty vault. *)
Lemma uploadFile_local_root_witness :
  absent "0cc175b9c0f1b6a831c399e269772661.png" "/" /\
  snd (snd (uploadFile empty_vault DEFAULT_SETTINGS true
              (mkFile "a.png" "image/png" [Byte.x61])
              "0cc175b9c0f1b6a831c399e269772661.png" [Byte.x61] (tt, [])))
  = [CallExists EmptyString;
     CallWriteBinary "0cc175b9c0f1b6a831c399e269772661.png" [Byte.x61]].
Proof.
  assert (H : absent "0cc175b9c0f1b6a831c399e269772661.png" "/")
    by (apply indexOf_None; reflexivity).
  split; [exact H|].
  apply (uploadFile_local_root empty_vault DEFAULT_SETTINGS
           (mkFile "a.png" "image/png" [Byte.x61]) _ [Byte.x61] tt H)
    with (present := false) (w' := tt).
  reflexivity.
Defined.

(** ** PlaceholderTextPatcher: [replaceText] *)

Section Lines.

Lemma join_cons (l : string) (after : list string) :
  JS.join JS.nl (l :: after) = l ++ lineRest after.
Proof. destruct after; simpl; [now rewrite append_nil_r | reflexivity]. Qed.

Lemma join_app (before : list string) (l : string) (after : list string) :
  JS.join JS.nl (before ++ l :: after)%list
  = unlines before ++ l ++ lineRest after.
Proof.
  induction before as [|x before IH].
  - apply join_cons.
  - change ((x :: before) ++ l :: after)%list
      with (x :: (before ++ l :: after))%list.
    rewrite join_cons. unfold lineRest at 1.
    destruct (before ++ l :: after)%list eqn:E.
    + now destruct before.
    + rewrite IH. cbn [unlines]. now rewrite !append_assoc.
Qed.

Lemma join_split (s : string) : JS.join JS.nl (JS.split JS.LF s) = s.
Proof.
  induction s as [|c s IH]; [reflexivity|]. cbn [JS.split].
  destruct (Ascii.eqb_spec c JS.LF) as [->|Hc].
  - rewrite join_cons. unfold lineRest.
    destruct (JS.split JS.LF s) eqn:E; [now apply split_not_nil in E|].
    now rewrite IH.
  - destruct (JS.split JS.LF s) as [|l ls] eqn:E;
      [now apply split_not_nil in E|].
    rewrite join_cons in *. cbn [append]. now rewrite IH.
Qed.

Lemma absent_cons (c d : ascii) (s : string) :
  c <> d -> absent s (String d EmptyString) ->
  absent (String c s) (String d EmptyString).
Proof.
  intros Hc H [|x a] b E; simpl in E; injection E as E1 E2.
  - congruence.
  - now apply (H a b).
Qed.

Lemma absent_empty (c : ascii) : absent EmptyString (String c EmptyString).
Proof. intros [|x a] b E; discriminate E. Qed.

(** No line holds a line feed. *)
Lemma split_LF_free (s : string) :
  Forall (fun l => absent l JS.nl) (JS.split JS.LF s).
Proof.
  induction s as [|c s IH]; cbn [JS.split].
  - constructor; [apply absent_empty | constructor].
  - destruct (Ascii.eqb_spec c JS.LF) as [->|Hc].
    + constructor; [apply absent_empty | assumption].
    + destruct (JS.split JS.LF s) as [|l ls]; inversion IH; subst.
      * constructor; [|constructor].
        apply absent_cons; [assumption | apply absent_empty].
      * constructor; [|assumption]. now apply absent_cons.
Qed.

Lemma lineStart_app (before rest : list string) :
  lineStart (before ++ rest) (List.length before)
  = String.length (unlines before).
Proof.
  induction before as [|x before IH]; simpl.
  - now destruct rest.
  - rewrite IH, length_append. simpl. lia.
Qed.

(** A part of a string without line feed has none. *)
Lemma absent_inside (a t b c : string) :
  absent (a ++ t ++ b) c -> absent t c.
Proof.
  intros H x y ->. apply (H (a ++ x) (y ++ b)).
  now rewrite !append_assoc.
Qed.

End Lines.

Section Localize.

Variable t : string.
Hypothesis t_one_line : absent t JS.nl.

(** An occurrence of [t] in a text whose first line has none lies past
    that line. *)
Lemma occurrence_past_line (l0 rest x y : string) :
  absent l0 t -> l0 ++ JS.nl ++ rest = x ++ t ++ y ->
  exists x', x = l0 ++ JS.nl ++ x' /\ rest = x' ++ t ++ y.
Proof.
  intros Hl0 E.
  destruct (Nat.le_gt_cases (String.length x) (String.length l0)) as [Hl|Hl].
  - exfalso. symmetry in E.
    destruct (append_eq_split _ _ _ _ E Hl) as (m & -> & Em).
    destruct (Nat.le_gt_cases (String.length t) (String.length m)) as [Ht|Ht].
    + destruct (append_eq_split _ _ _ _ Em Ht) as (m' & -> & _).
      now apply (Hl0 x m').
    + symmetry in Em.
      destruct (append_eq_split m _ t _ Em) as (t' & Et & Et'); [lia|].
      destruct t' as [|d t'].
      * rewrite Et, append_nil_r in Ht. lia.
      * unfold JS.nl in Et'. cbn [append] in Et'. injection Et' as <- _.
        now apply (t_one_line m t').
  - destruct (append_eq_split l0 _ x _ E) as (m & -> & Em); [lia|].
    destruct m as [|d m].
    + rewrite append_nil_r in Hl. lia.
    + unfold JS.nl in Em. cbn [append] in Em. injection Em as <- ->.
      exists m. split; reflexivity.
Qed.

Lemma occurrence_past_lines (before : list string) (rest x y : string) :
  Forall (fun l => absent l t) before ->
  unlines before ++ rest = x ++ t ++ y ->
  exists x', x = unlines before ++ x' /\ rest = x' ++ t ++ y.
Proof.
  revert x; induction before as [|l0 before IH]; intros x Hb E.
  - now exists x.
  - inversion Hb as [|? ? H0 Hb']; subst. cbn [unlines] in E.
    rewrite !append_assoc in E.
    destruct (occurrence_past_line _ _ _ _ H0 E) as (x1 & -> & E1).
    destruct (IH x1 Hb' E1) as (x' & -> & E').
    exists x'. cbn [unlines]. now rewrite !append_assoc.
Qed.

(** The first occurrence in a line is the first one in the line and
    what follows it. *)
Lemma occurrence_in_line (l : string) (after : list string) (c : nat)
  (x y : string) :
  first_at l t c -> l ++ lineRest after = x ++ t ++ y ->
  c <= String.length x.
Proof.
  intros [(la & lb & El & Hc) Hmin] E.
  destruct (Nat.le_gt_cases (String.length (x ++ t)) (String.length l))
    as [Hl|Hl].
  - rewrite <- append_assoc in E. symmetry in E.
    destruct (append_eq_split _ _ _ _ E Hl) as (m & Em & _).
    apply (Hmin x m). now rewrite <- append_assoc.
  - destruct (Nat.le_gt_cases (String.length l) (String.length x)) as [Hx|Hx].
    + rewrite El, !length_append in Hx. lia.
    + exfalso. symmetry in E.
      destruct (append_eq_split x _ l _ E) as (m & Em & Em'); [lia|].
      rewrite length_append in Hl.
      assert (Hm : String.length m < String.length t).
      { rewrite Em, length_append in Hl. lia. }
      symmetry in Em'.
      destruct (append_eq_split m _ t _ Em') as (t' & Et & Et'); [lia|].
      destruct t' as [|d t'].
      * rewrite Et, append_nil_r in Hm. lia.
      * destruct after as [|a1 after]; [discriminate Et'|].
        unfold lineRest, JS.nl in Et'. cbn [append] in Et'.
        injection Et' as <- _. now apply (t_one_line m t').
Qed.

(** Without an occurrence in any line there is none in the text. *)
Lemma absent_join (lines : list string) :
  lines <> [] -> Forall (fun l => absent l t) lines ->
  absent (JS.join JS.nl lines) t.
Proof.
  induction lines as [|l lines IH]; intros Hne Hall; [contradiction|].
  inversion Hall as [|? ? Hl Hrest]; subst.
  rewrite join_cons. destruct lines as [|l1 lines].
  - unfold lineRest. now rewrite append_nil_r.
  - intros x y E. unfold lineRest in E.
    destruct (occurrence_past_line _ _ _ _ Hl E) as (x' & _ & E').
    revert E'. apply IH; [discriminate | assumption].
Qed.

End Localize.

Section Patcher.

Variable ed : Editor.
Variables t r : string.

Let misses (l : string) : Prop := JS.indexOf l t = None.

Lemma loop_none (lines : list string) (i : nat) :
  Forall misses lines -> replaceText_loop ed t r lines i = ed.
Proof.
  revert i; induction lines as [|l lines IH]; intros i H; [reflexivity|].
  inversion H as [|? ? Hl Hrest]; subst. unfold misses in Hl.
  cbn [replaceText_loop]. rewrite Hl. now apply IH.
Qed.

Lemma loop_found (before : list string) (l : string) (after : list string)
  (c i : nat) :
  Forall misses before -> JS.indexOf l t = Some c ->
  replaceText_loop ed t r (before ++ l :: after) i
  = replaceRange r {| line := i + List.length before; ch := c |}
      {| line := i + List.length before; ch := c + String.length t |}
      (setCursor {| line := i + List.length before; ch := c |} ed).
Proof.
  revert i; induction before as [|l0 before IH]; intros i Hb Hl.
  - cbn [app replaceText_loop List.length]. rewrite Hl.
    now rewrite Nat.add_0_r.
  - inversion Hb as [|? ? H0 Hb']; subst. unfold misses in H0.
    cbn [app replaceText_loop List.length]. rewrite H0.
    rewrite (IH (S i) Hb' Hl). now rewrite Nat.add_succ_r.
Qed.

(** The scan stops at the first line that holds [t], or never. *)
Lemma scan_cases (lines : list string) :
  Forall misses lines \/
  exists before l after c,
    lines = (before ++ l :: after)%list /\ Forall misses before /\
    JS.indexOf l t = Some c.
Proof.
  induction lines as [|l lines IH]; [left; constructor|].
  destruct (JS.indexOf l t) as [c|] eqn:El.
  - right. exists [], l, lines, c. repeat split; [constructor | assumption].
  - destruct IH as [IH | (before & l1 & after & c & -> & Hb & Hl)].
    + left. now constructor.
    + right. exists (l :: before), l1, after, c.
      repeat split; [now constructor | assumption].
Qed.

(** The text after the range replacement made for an occurrence in a
    line. *)
Lemma patched_text (before : list string) (la lb : string)
  (after : list string) :
  JS.split JS.LF (doc ed) = (before ++ (la ++ t ++ lb)%string :: after)%list ->
  doc (replaceRange r
         {| line := List.length before; ch := String.length la |}
         {| line := List.length before;
            ch := String.length la + String.length t |}
         (setCursor {| line := List.length before;
                       ch := String.length la |} ed))
  = unlines before ++ la ++ r ++ lb ++ lineRest after.
Proof.
  intros Hs.
  assert (Hdoc : doc ed
                 = (unlines before ++ la) ++ t ++ (lb ++ lineRest after)).
  { rewrite <- (join_split (doc ed)), Hs, join_app.
    now rewrite !append_assoc. }
  unfold replaceRange, setCursor, posToOffset. cbn [doc line ch].
  rewrite Hs, lineStart_app.
  replace (String.length (unlines before)
           + (String.length la + String.length t))
    with (String.length (unlines before ++ la) + String.length t)
    by (rewrite length_append; lia).
  replace (String.length (unlines before) + String.length la)
    with (String.length (unlines before ++ la))
    by apply length_append.
  rewrite Hdoc.
  rewrite take_app, drop_drop, drop_app, drop_app.
  now rewrite !append_assoc.
Qed.

End Patcher.

Section ReplaceText.

Variable ed : Editor.
Variables target replacement : string.

Let t := JS.trim target.
Let text := getValue ed.
Let text' := getValue (replaceText ed target replacement).

(** What [replaceText] does, in every case: either no line holds the
    trimmed target and the editor is left as it is, or the first line
    that holds it is patched at its first occurrence there, which is the
    first occurrence in the whole text. *)
Lemma replaceText_cases :
  (replaceText ed target replacement = ed /\
   Forall (fun l => absent l t) (JS.split JS.LF text)) \/
  (exists before la lb after,
     JS.split JS.LF text = (before ++ (la ++ t ++ lb)%string :: after)%list /\
     Forall (fun l => absent l t) before /\
     first_at (la ++ t ++ lb) t (String.length la) /\
     absent t JS.nl /\
     first_at text t (String.length (unlines before ++ la)) /\
     text = (unlines before ++ la) ++ t ++ (lb ++ lineRest after) /\
     text' = (unlines before ++ la) ++ replacement ++ (lb ++ lineRest after)).
Proof.
  unfold text', replaceText. cbv zeta. fold t. fold text.
  destruct (scan_cases t (JS.split JS.LF text))
    as [Hnone | (before & l & after & c & Hs & Hb & Hl)].
  - left. split; [now apply loop_none|].
    eapply Forall_impl; [|exact Hnone]. intros l. apply indexOf_None.
  - right. pose proof (indexOf_Some _ _ _ Hl) as Hfirst.
    destruct Hfirst as [(la & lb & El & Hc) Hmin]. subst l c.
    assert (Hb' : Forall (fun l => absent l t) before).
    { eapply Forall_impl; [|exact Hb]. intros l. apply indexOf_None. }
    assert (Ht : absent t JS.nl).
    { pose proof (split_LF_free text) as Hfree. rewrite Hs in Hfree.
      apply Forall_app in Hfree as [_ Hfree].
      inversion Hfree as [|? ? Hl0 _]; subst.
      now apply absent_inside in Hl0. }
    assert (Hdoc : text
                   = (unlines before ++ la) ++ t ++ (lb ++ lineRest after)).
    { unfold text, getValue.
      rewrite <- (join_split (doc ed)). fold (getValue ed). fold text.
      rewrite Hs, join_app. now rewrite !append_assoc. }
    exists before, la, lb, after.
    split; [assumption|]. split; [assumption|].
    split; [split; [now exists la, lb | assumption]|].
    split; [assumption|]. split; [|split; [assumption|]].
    + split; [now exists (unlines before ++ la), (lb ++ lineRest after)|].
      intros x y E. rewrite Hdoc, !append_assoc in E.
      destruct (occurrence_past_lines t Ht before _ x y Hb' E)
        as (x' & -> & E').
      assert (Hf : first_at (la ++ t ++ lb) t (String.length la))
        by (split; [now exists la, lb | assumption]).
      assert (E2 : (la ++ t ++ lb) ++ lineRest after = x' ++ t ++ y)
        by (rewrite <- E'; now rewrite !append_assoc).
      pose proof (occurrence_in_line t Ht _ after _ x' y Hf E2) as Hle.
      rewrite !length_append. lia.
    + rewrite Hs.
      rewrite (loop_found ed t replacement before _ after _ 0 Hb Hl).
      cbn [Nat.add]. unfold getValue.
      rewrite (patched_text ed t replacement before la lb after Hs).
      now rewrite !append_assoc.
Qed.

End ReplaceText.

Section FirstMatch.

Lemma cut_unique (p q p0 q0 t : string) :
  p ++ t ++ q = p0 ++ t ++ q0 -> String.length p = String.length p0 ->
  p = p0 /\ q = q0.
Proof.
  intros E Hl.
  destruct (append_eq_split _ _ _ _ E) as (m & -> & Em); [lia|].
  rewrite length_append in Hl. destruct m; [|simpl in Hl; lia].
  rewrite append_nil_r. split; [reflexivity|].
  simpl in Em. now apply append_inv_head in Em.
Qed.

Variable ed : Editor.
Variables target replacement : string.

(** The first occurrence of a one-line target in the whole text is the
    one that is replaced. *)
Lemma replaceText_global (p q : string) :
  getValue ed = p ++ JS.trim target ++ q ->
  first_at (getValue ed) (JS.trim target) (String.length p) ->
  absent (JS.trim target) JS.nl ->
  getValue (replaceText ed target replacement) = p ++ replacement ++ q.
Proof.
  intros E Hfirst Ht.
  destruct (replaceText_cases ed target replacement)
    as [[_ Hnone] | (before & la & lb & after & _ & _ & _ & _ & Hf & E0 & ->)].
  - exfalso. apply (absent_join _ Ht) in Hnone; [|apply split_not_nil].
    rewrite join_split in Hnone. now apply (Hnone p q).
  - assert (Hl : String.length (unlines before ++ la) = String.length p).
    { apply first_at_indexOf in Hf, Hfirst. congruence. }
    rewrite E0 in E.
    destruct (cut_unique _ _ _ _ _ E Hl) as [-> ->]. reflexivity.
Qed.

(** Nothing happens to a text that does not hold the trimmed target. *)
Lemma replaceText_absent :
  absent (getValue ed) (JS.trim target) ->
  replaceText ed target replacement = ed.
Proof.
  intros H.
  destruct (replaceText_cases ed target replacement)
    as [[Hsame _] | (before & la & lb & after & _ & _ & _ & _ & _ & E0 & _)].
  - exact Hsame.
  - now apply H in E0.
Qed.

(** C2. [replaceText] scans the lines from the top and patches the first
    line that holds the trimmed target, at its first occurrence there;
    that is the first occurrence in the whole text, and nothing else
    changes; a text that does not hold the trimmed target is left as it
    is, and so is the editor. *)
Theorem replaceText_first_match :
  let t := JS.trim target in
  let text := getValue ed in
  let text' := getValue (replaceText ed target replacement) in
  (forall before la lb after,
     JS.split JS.LF text = (before ++ (la ++ t ++ lb)%string :: after)%list ->
     Forall (fun l => absent l t) before ->
     first_at (la ++ t ++ lb) t (String.length la) ->
     text' = JS.join JS.nl
               (before ++ (la ++ replacement ++ lb)%string :: after)%list) /\
  (forall p q, text = p ++ t ++ q -> first_at text t (String.length p) ->
     absent t JS.nl -> text' = p ++ replacement ++ q) /\
  (text' = text \/
   exists p q, text = p ++ t ++ q /\ first_at text t (String.length p) /\
               text' = p ++ replacement ++ q) /\
  (absent text t -> replaceText ed target replacement = ed).
Proof.
  cbv zeta. split; [|split; [|split]].
  - intros before la lb after Hs Hb Hf.
    unfold replaceText; cbv zeta. rewrite Hs.
    rewrite (loop_found ed _ replacement before _ after (String.length la) 0).
    + cbn [Nat.add]. unfold getValue.
      rewrite (patched_text ed _ replacement before la lb after Hs).
      now rewrite join_app, !append_assoc.
    + eapply Forall_impl; [|exact Hb]. intros l. apply absent_indexOf.
    + now apply first_at_indexOf.
  - apply replaceText_global.
  - destruct (replaceText_cases ed target replacement)
      as [[Hsame _] | (before & la & lb & after & _ & _ & _ & _ & Hf & E0 & E1)].
    + left. now rewrite Hsame.
    + right. now exists (unlines before ++ la), (lb ++ lineRest after).
  - apply replaceText_absent.
Qed.

End FirstMatch.

(** ** The placeholder and its line feed *)

Section Placeholder.

Lemma trimEnd_app (a : string) (c : ascii) (w : string) :
  JS.is_white c = false -> JS.trimEnd w = EmptyString ->
  JS.trimEnd (a ++ String c w) = a ++ String c EmptyString.
Proof.
  intros Hc Hw. induction a as [|x a IH]; cbn [append JS.trimEnd].
  - now rewrite Hw, Hc.
  - rewrite IH. now destruct a.
Qed.

Lemma trimStart_nonwhite (c : ascii) (s : string) :
  JS.is_white c = false -> JS.trimStart (String c s) = String c s.
Proof. intros H. cbn [JS.trimStart]. now rewrite H. Qed.

Lemma trim_placeholder (nm : string) :
  JS.trim (placeholder nm) = "![uploading...](" ++ nm ++ ")".
Proof.
  assert (E : placeholder nm
              = ("![uploading...](" ++ nm) ++ String ")" JS.nl)
    by (unfold placeholder; now rewrite !append_assoc).
  unfold JS.trim. rewrite E at 1. cbn [append].
  rewrite trimStart_nonwhite by reflexivity.
  change (JS.trimEnd (("![uploading...](" ++ nm) ++ String ")" JS.nl)
          = "![uploading...](" ++ nm ++ ")").
  rewrite trimEnd_app by reflexivity. now rewrite append_assoc.
Qed.

Variable md5hex : list Byte.byte -> string.
Variable settings : S3UploaderSettings.
Variable fm : option FrontMatterCache.

(** C9. The placeholder inserted for a file is [![uploading...](name)]
    and a line feed.  [replaceText] searches for it trimmed, that is
    without the line feed: whatever it replaces, the line feed and what
    follows it stay in the text; when the placeholder is the first match,
    exactly the part before the line feed is replaced. *)
Theorem placeholder_newline_stays (file : File) (ed : Editor)
  (replacement p s : string)
  (Htext : getValue ed
           = p ++ placeholder (newFileName md5hex file (bytes file)) ++ s) :
  let nm := newFileName md5hex file (bytes file) in
  (forall ed0 thisType now,
     getValue (fst (afterBytes md5hex settings fm ed0 file thisType now))
     = JS.take (selFrom ed0) (getValue ed0)
       ++ ("![uploading...](" ++ nm ++ ")" ++ JS.nl)
       ++ JS.drop (selTo ed0) (getValue ed0)) /\
  placeholder nm = "![uploading...](" ++ nm ++ ")" ++ JS.nl /\
  JS.trim (placeholder nm) = "![uploading...](" ++ nm ++ ")" /\
  (exists p',
     getValue (replaceText ed (placeholder nm) replacement)
     = p' ++ JS.nl ++ s) /\
  (first_at (getValue ed) (JS.trim (placeholder nm)) (String.length p) ->
   absent nm JS.nl ->
   getValue (replaceText ed (placeholder nm) replacement)
   = p ++ replacement ++ JS.nl ++ s).
Proof.
  cbv zeta. set (nm := newFileName md5hex file (bytes file)) in *.
  assert (E : getValue ed = p ++ JS.trim (placeholder nm) ++ JS.nl ++ s).
  { rewrite Htext, trim_placeholder. unfold placeholder.
    now rewrite !append_assoc. }
  split; [reflexivity|]. split; [reflexivity|].
  split; [apply trim_placeholder|]. split.
  - destruct (replaceText_cases ed (placeholder nm) replacement)
      as [[Hsame _] | (before & la & lb & after & _ & _ & _ & _ & Hf & E0 & E1)].
    + rewrite Hsame, E. exists (p ++ JS.trim (placeholder nm)).
      now rewrite !append_assoc.
    + rewrite E1. destruct Hf as [_ Hmin].
      pose proof (Hmin _ _ E) as Hle. rewrite E in E0. symmetry in E0.
      destruct (append_eq_split _ _ _ _ E0 Hle) as (m & -> & Em).
      rewrite <- (append_assoc m) in Em.
      destruct (append_eq_split _ _ _ _ Em) as (m' & _ & ->);
        [rewrite length_append; lia|].
      exists ((unlines before ++ la) ++ replacement ++ m').
      now rewrite !append_assoc.
  - intros Hfirst Hnm.
    apply (replaceText_global ed (placeholder nm) replacement p (JS.nl ++ s) E Hfirst).
    rewrite trim_placeholder.
    apply absent_char_app; [apply indexOf_None; reflexivity|].
    apply absent_char_app; [assumption | apply indexOf_None; reflexivity].
Qed.

End Placeholder.

(** The theorem at work: the placeholder of [patch_file] is replaced
    by its embed and the line feed stays. *)
Lemma placeholder_newline_stays_witness :
  getValue patch_editor
  = ("Intro" ++ JS.nl)
    ++ placeholder (newFileName patch_digest patch_file (bytes patch_file))
    ++ "Outro" /\
  getValue (replaceText patch_editor
              (placeholder (newFileName patch_digest patch_file
                              (bytes patch_file)))
              "![image](https://b.s3.example.com/a.png)")
  = ("Intro" ++ JS.nl) ++ "![image](https://b.s3.example.com/a.png)"
    ++ JS.nl ++ "Outro".
Proof.
  assert (H : getValue patch_editor
              = ("Intro" ++ JS.nl)
                ++ placeholder (newFileName patch_digest patch_file
                                  (bytes patch_file))
                ++ "Outro") by reflexivity.
  split; [exact H|].
  apply (placeholder_newline_stays patch_digest DEFAULT_SETTINGS None
           patch_file patch_editor
           "![image](https://b.s3.example.com/a.png)"
           ("Intro" ++ JS.nl) "Outro" H).
  - apply indexOf_Some. reflexivity.
  - apply indexOf_None. reflexivity.
Defined.

(** ** KeyDeriver: the date in the folder template *)

Section DateStrings.

Lemma all_chars_app (P : ascii -> bool) (a b : string) :
  all_chars P (a ++ b) = all_chars P a && all_chars P b.
Proof.
  induction a as [|c a IH]; simpl; [reflexivity|].
  now rewrite IH, andb_assoc.
Qed.

Lemma all_chars_absent (P : ascii -> bool) (c : ascii) (s : string) :
  all_chars P s = true -> P c = false -> absent s (String c EmptyString).
Proof.
  intros H Hc a b ->. rewrite all_chars_app in H. simpl in H.
  rewrite Hc in H. now rewrite andb_false_r in H.
Qed.

Lemma numeric_uint (d : Decimal.uint) :
  all_chars numeric (NilZero.string_of_uint d) = true.
Proof.
  assert (H : all_chars numeric (NilEmpty.string_of_uint d) = true)
    by (induction d; simpl; auto).
  destruct d; exact H.
Qed.

Lemma numeric_string_of_Z (z : Z) :
  all_chars numeric (JS.string_of_Z z) = true.
Proof.
  unfold JS.string_of_Z, NilZero.string_of_int.
  destruct (Z.to_int z) as [d|d]; [apply numeric_uint|].
  cbn [all_chars]. now rewrite numeric_uint.
Qed.

Lemma numeric_padStart (n k : nat) :
  all_chars numeric (JS.padStart (JS.string_of_nat n) k "0") = true.
Proof.
  unfold JS.padStart. rewrite all_chars_app.
  unfold JS.string_of_nat. rewrite numeric_uint, andb_true_r.
  induction (k - _) as [|j IH]; simpl; [reflexivity | exact IH].
Qed.


Variable d : Date.

Lemma yearString_numeric : all_chars numeric (yearString d) = true.
Proof. apply numeric_string_of_Z. Qed.

Lemma monthString_numeric : all_chars numeric (monthString d) = true.
Proof. apply numeric_padStart. Qed.

Lemma dayString_numeric : all_chars numeric (dayString d) = true.
Proof. apply numeric_padStart. Qed.









End DateStrings.

Section FolderPath.


Variable settings : S3UploaderSettings.
Variable fm : option FrontMatterCache.
Variable localUpload : bool.
Variable d : Date.


End FolderPath.



(** ** Template tokens left after substitution *)

Section Tokens.













End Tokens.



(** ** UploadOrchestrator: the batch *)

Section Batch.

Variable md5hex : list Byte.byte -> string.
Variable settings : S3UploaderSettings.
Variable noteFile : option string.
Variable fm : option FrontMatterCache.








Lemma pasteHandler_starts (ev : PasteEvent) (ed : Editor) :
  startsBatch settings noteFile fm ev ->
  pasteHandler settings noteFile fm ev ed
  = promiseAll {| editor := ed;
                  uploads := map (launch settings fm) (eventFiles ev);
                  aggregate := Pending; notices := []; prevented := true |}.
Proof.
  intros (H1 & H2 & H3 & H4). unfold pasteHandler.
  rewrite H1, H2, H3. cbn [negb].
  destruct (eventFiles ev); [contradiction | reflexivity].
Qed.



Lemma promiseAll_uploads (b : Batch) : uploads (promiseAll b) = uploads b.
Proof.
  unfold promiseAll. destruct (aggregate b); try reflexivity.
  destruct (firstRejection (uploads b)); [reflexivity|].
  now destruct (forallb isFulfilled (uploads b)).
Qed.


Lemma promiseAll_editor (b : Batch) : editor (promiseAll b) = editor b.
Proof.
  unfold promiseAll. destruct (aggregate b); try reflexivity.
  destruct (firstRejection (uploads b)); [reflexivity|].
  now destruct (forallb isFulfilled (uploads b)).
Qed.

Lemma update_nth_same {A : Type} (l : list A) (i : nat) (x y : A) :
  nth_error l i = Some y -> nth_error (update_nth i x l) i = Some x.
Proof.
  revert i; induction l as [|z l IH]; intros [|i] H; try discriminate H;
    cbn [update_nth nth_error]; [reflexivity | now apply IH].
Qed.



End Batch.

(** *** Two files pasted at once, one upload failing *)


(** The text at the end of that run, and the state of the batch before
    its last event. *)
Example mixed_run_text :
  let b := run patch_digest mixed_settings None
             (pasteHandler mixed_settings (Some "note.md") None
                mixed_event blank_editor)
             mixed_schedule in
  getValue (editor b)
  = "Seen. ![image](https://b.s3.eu-west-1.amazonaws.com/0cc175b9c0f1b6a831c399e269772661.png)"
    ++ JS.nl ++ "Error uploading file: Network Failure" ++ JS.nl ++ JS.nl /\
  uploads b = [Finished; Finished; Finished] /\
  aggregate b = Fulfilled.
Proof. vm_compute. repeat split; reflexivity. Qed.

Example mixed_run_before_last :
  let b := run patch_digest mixed_settings None
             (pasteHandler mixed_settings (Some "note.md") None
                mixed_event blank_editor)
             (removelast mixed_schedule) in
  notices b = [] /\ aggregate b = Pending /\
  forallb isSettled (uploads b) = false.
Proof. vm_compute. repeat split; reflexivity. Qed.

(** When the bytes of a file cannot be read the rejection is not caught:
    the aggregate is rejected and no notice is shown. *)
Example unreadable_bytes_reject :
  let b := run patch_digest mixed_settings None
             (pasteHandler mixed_settings (Some "note.md") None
                mixed_event blank_editor)
             [BytesFailed 0 (mkError "NotReadableError");
              BytesRead 1 (mkDate 2024 2 7);
              UploadSettled 1 (Normal "https://b.s3.eu-west-1.amazonaws.com/x.mp4")] in
  aggregate b = Rejected (mkError "NotReadableError") /\ notices b = [].
Proof. vm_compute. repeat split; reflexivity. Qed.

(* ================================================================== *)
(** * Part III: further properties of the code                         *)
(* ================================================================== *)

(** ** [uploadFile]: the remote branch and the folder of a local key *)

Section UploadFurther.

(** The last slash of [folder/name] is the one that joins them. *)
Lemma lastIndexOf_joined (folder name : string) :
  absent name "/" ->
  JS.lastIndexOf (folder ++ "/" ++ name) "/" = Some (String.length folder).
Proof.
  intros H. induction folder as [|c folder IH].
  - cbn [append JS.lastIndexOf]. rewrite (absent_lastIndexOf _ _ H).
    reflexivity.
  - cbn [append JS.lastIndexOf String.length].
    cbn [append] in IH. now rewrite IH.
Qed.

(** The folder [uploadFile] reads off a key is the folder the key was
    built from. *)
Lemma folderPath_of_key (folder name : string) :
  absent name "/" ->
  JS.substring (key folder name) 0
    (JS.js_index (JS.lastIndexOf (key folder name) "/")) = folder.
Proof.
  intros H. unfold key. destruct folder as [|c folder].
  - cbn [JS.truthy]. now apply folderPath_root.
  - cbn [JS.truthy]. rewrite (lastIndexOf_joined _ _ H).
    unfold JS.substring, JS.clamp, JS.js_index.
    rewrite Nat2Z.id, length_append. cbn [Z.to_nat Nat.min].
    rewrite Nat.min_l by lia. rewrite Nat.max_r by lia.
    rewrite Nat.sub_0_r. cbn [JS.drop]. apply take_app.
Qed.

Context {W : Type} (host : Host W) (settings : S3UploaderSettings).

(** X1. A remote upload sends one request and nothing else: bucket,
    key, bytes and media type; the vault is not asked anything.  Its
    result is the public prefix followed by the key, or the error of the
    request. *)
Theorem uploadFile_remote (file : File) (k : string) (buf : list Byte.byte)
  (w : W) (log : list Call) :
  let cmd := {| Bucket := bucket settings; Key := k; Body := buf;
                ContentType := type file |} in
  let out := uploadFile host settings false file k buf (w, log) in
  snd (snd out) = (log ++ [CallSend cmd])%list /\
  fst (snd out) = snd (s3_send host cmd w) /\
  (forall w', s3_send host cmd w = (Normal tt, w') ->
     fst out = Normal (imageUrlPath settings ++ k)) /\
  (forall e w', s3_send host cmd w = (Throw e, w') -> fst out = Throw e).
Proof.
  cbv zeta. unfold uploadFile, bind, await, ret. cbn [negb fst snd].
  destruct (s3_send host _ w) as [[[]|e] w1]; cbn [fst snd];
    repeat split; try reflexivity; intros; congruence.
Qed.

(** X2. In local mode, for a key [folder/name], the folder asked of the
    vault is the folder the key was built from; it is created exactly
    when the vault says it does not exist, before the bytes are written
    under the key; when the creation fails nothing is written and its
    error is the result. *)
Theorem uploadFile_local_folder (file : File) (folder name : string)
  (buf : list Byte.byte) (w : W)
  (Hname : absent name "/") (Hfolder : folder <> EmptyString) :
  let k := key folder name in
  let out := uploadFile host settings true file k buf (w, []) in
  let log := snd (snd out) in
  k = folder ++ "/" ++ name /\
  (forall w1, adapter_exists host folder w = (Normal true, w1) ->
     log = [CallExists folder; CallWriteBinary k buf]) /\
  (forall w1 w2, adapter_exists host folder w = (Normal false, w1) ->
     vault_createFolder host folder w1 = (Normal tt, w2) ->
     log = [CallExists folder; CallCreateFolder folder;
            CallWriteBinary k buf]) /\
  (forall w1 w2 e, adapter_exists host folder w = (Normal false, w1) ->
     vault_createFolder host folder w1 = (Throw e, w2) ->
     fst out = Throw e /\
     log = [CallExists folder; CallCreateFolder folder]).
Proof.
  cbv zeta. unfold uploadFile. cbn [negb].
  rewrite (folderPath_of_key folder name Hname).
  assert (Ht : JS.truthy folder = true)
    by (destruct folder; [congruence | reflexivity]).
  unfold bind, await, ret. cbn [fst snd app]. rewrite Ht.
  split; [unfold key; now rewrite Ht|].
  split; [|split].
  - intros w1 E. rewrite E. cbn [negb andb fst snd app].
    now destruct (adapter_writeBinary host _ buf w1) as [[[]|e] w2].
  - intros w1 w2 E1 E2. rewrite E1. cbn [negb andb fst snd app].
    rewrite E2. cbn [fst snd app].
    now destruct (adapter_writeBinary host _ buf w2) as [[[]|e] w3].
  - intros w1 w2 e E1 E2. rewrite E1. cbn [negb andb fst snd app].
    rewrite E2. cbn [fst snd app]. auto.
Qed.

(** X3. In local mode the bytes are written under the key as it is,
    and the path returned is the key without its first character when
    that is a slash: one slash at most is removed. *)
Theorem uploadFile_local_path (file : File) (k : string)
  (buf : list Byte.byte) (w : W) (log : list Call) (path : string)
  (Hok : fst (uploadFile host settings true file k buf (w, log))
         = Normal path) :
  let out := uploadFile host settings true file k buf (w, log) in
  (exists calls, snd (snd out) = (calls ++ [CallWriteBinary k buf])%list) /\
  ((JS.startsWith k "/" = false /\ path = k) \/ k = "/" ++ path).
Proof.
  cbv zeta. revert Hok. unfold uploadFile. cbn [negb].
  set (fp := JS.substring k 0 _).
  unfold bind, await, ret. cbn [fst snd].
  destruct (adapter_exists host fp w) as [[present|e] w1]; cbn [fst snd];
    [|discriminate].
  assert (Hpath : forall q, (if JS.startsWith k "/" then JS.slice k 1 else k) = q ->
            (JS.startsWith k "/" = false /\ q = k) \/ k = "/" ++ q).
  { intros q <-. destruct (JS.startsWith k "/") eqn:E; [right | now left].
    apply startsWith_inv in E as [r ->]. reflexivity. }
  destruct (negb present && JS.truthy fp); cbn [fst snd].
  - destruct (vault_createFolder host fp w1) as [[[]|e] w2]; cbn [fst snd];
      [|discriminate].
    destruct (adapter_writeBinary host k buf w2) as [[[]|e] w3];
      cbn [fst snd]; [|discriminate].
    intros [= H]. split; [|now apply Hpath].
    now exists (log ++ [CallExists fp] ++ [CallCreateFolder fp])%list;
      rewrite <- !app_assoc.
  - destruct (adapter_writeBinary host k buf w1) as [[[]|e] w2];
      cbn [fst snd]; [|discriminate].
    intros [= H]. split; [|now apply Hpath].
    now exists (log ++ [CallExists fp])%list.
Qed.

End UploadFurther.

(** The theorem at work: a dated folder in a vault that has it
    already. *)
Lemma uploadFile_local_folder_witness :
  absent "a.png" "/" /\ "2024/03" <> EmptyString /\
  snd (snd (uploadFile full_vault DEFAULT_SETTINGS true patch_file
              (key "2024/03" "a.png") [Byte.x61] (tt, [])))
  = [CallExists "2024/03"; CallWriteBinary "2024/03/a.png" [Byte.x61]].
Proof.
  assert (H : absent "a.png" "/") by (apply indexOf_None; reflexivity).
  assert (H' : "2024/03" <> EmptyString) by discriminate.
  split; [exact H|]. split; [exact H'|].
  apply (uploadFile_local_folder full_vault DEFAULT_SETTINGS patch_file
           "2024/03" "a.png" [Byte.x61] tt H H') with (w1 := tt).
  reflexivity.
Defined.

(** The theorem at work: a key that starts with a slash. *)
Lemma uploadFile_local_path_witness :
  fst (uploadFile full_vault DEFAULT_SETTINGS true patch_file
         "/img/a.png" [Byte.x61] (tt, []))
  = Normal "img/a.png" /\
  ((JS.startsWith "/img/a.png" "/" = false /\ "img/a.png" = "/img/a.png")
   \/ "/img/a.png" = "/" ++ "img/a.png").
Proof.
  assert (H : fst (uploadFile full_vault DEFAULT_SETTINGS true patch_file
                     "/img/a.png" [Byte.x61] (tt, []))
              = Normal "img/a.png") by reflexivity.
  split; [exact H|].
  apply (uploadFile_local_path full_vault DEFAULT_SETTINGS patch_file
           "/img/a.png" [Byte.x61] tt [] "img/a.png" H).
Defined.

(** ** [pasteHandler]: the guards *)

Section Guards.

Variable settings : S3UploaderSettings.
Variable noteFile : option string.
Variable fm : option FrontMatterCache.

Lemma promiseAll_prevented (b : Batch) :
  prevented (promiseAll b) = prevented b.
Proof.
  unfold promiseAll. destruct (aggregate b); try reflexivity.
  destruct (firstRejection (uploads b)); [reflexivity|].
  now destruct (forallb isFulfilled (uploads b)).
Qed.

(** X4. The handler either does nothing at all or starts a batch.  It
    does nothing (the text, the notices and the event are left as they
    are) when the event was already handled, when there is no active
    note or its name is empty, when a drop arrives while uploading on
    drag is off, when the event is neither a paste nor a drop, and when
    the event carries no file.  Otherwise it marks the event as handled
    and starts one upload per file, without touching the text yet. *)
Theorem pasteHandler_guards (ev : PasteEvent) (ed : Editor) :
  let b := pasteHandler settings noteFile fm ev ed in
  (startsBatch settings noteFile fm ev ->
     prevented b = true /\
     List.length (uploads b) = List.length (eventFiles ev) /\
     editor b = ed) /\
  (~ startsBatch settings noteFile fm ev -> b = idle ev ed) /\
  (defaultPrevented ev = true -> b = idle ev ed) /\
  (noteFile = None \/ noteFile = Some EmptyString -> b = idle ev ed) /\
  (ev_type ev = "drop" -> uploadOnDrag_ settings fm = false ->
     b = idle ev ed) /\
  (ev_type ev <> "paste" -> ev_type ev <> "drop" -> b = idle ev ed) /\
  (eventFiles ev = [] -> b = idle ev ed).
Proof.
  cbv zeta.
  assert (Hidle : ~ startsBatch settings noteFile fm ev ->
                  pasteHandler settings noteFile fm ev ed = idle ev ed).
  { intros H. unfold pasteHandler.
    destruct (defaultPrevented ev) eqn:E1; [reflexivity|].
    destruct (JS.truthy (overlay noteFile EmptyString)) eqn:E2;
      [|reflexivity].
    cbn [negb].
    destruct (String.eqb (ev_type ev) "drop"
              && negb (uploadOnDrag_ settings fm)) eqn:E3; [reflexivity|].
    destruct (eventFiles ev) eqn:E4; [reflexivity|].
    exfalso. apply H. unfold startsBatch. rewrite E4. repeat split; auto.
    discriminate. }
  split; [|split; [exact Hidle|]].
  - intros H. rewrite (pasteHandler_starts settings noteFile fm ev ed H).
    rewrite promiseAll_prevented, promiseAll_uploads, promiseAll_editor.
    cbn [prevented uploads editor]. now rewrite length_map.
  - repeat split; intros; apply Hidle; intros (H1 & H2 & H3 & H4).
    + congruence.
    + destruct H as [-> | ->]; discriminate H2.
    + rewrite H, H0 in H3. discriminate H3.
    + apply H4. unfold eventFiles.
      apply String.eqb_neq in H, H0. now rewrite H, H0.
    + contradiction.
Qed.

End Guards.

(** ** [getFileType] and [wrapFileDependingOnType] together *)

Section ClassifierFurther.

Lemma getFileType_kinds (file : File) (uv ua up : bool) (k : string) :
  getFileType file uv ua up = Some k ->
  k = "video" \/ k = "audio" \/ k = "pdf" \/ k = "image".
Proof.
  unfold getFileType; cbv zeta.
  destruct (JS.startsWith (type file) "video/" && uv); [intros [= <-]; auto|].
  destruct (JS.startsWith (type file) "audio/" && ua); [intros [= <-]; auto|].
  destruct (String.eqb (type file) "application/pdf" && up);
    [intros [= <-]; auto|].
  destruct (JS.startsWith (type file) "image/"); [intros [= <-]; auto 6|].
  discriminate.
Qed.

Lemma kinds_render (location base k : string) :
  k = "video" \/ k = "audio" \/ k = "pdf" \/ k = "image" ->
  exists markup, wrapFileDependingOnType location k base = Normal markup.
Proof.
  intros [-> | [-> | [-> | ->]]]; eexists; reflexivity.
Qed.

(** X5. Whatever the classifier accepts, the renderer renders: on a
    kind that [getFileType] returned, [wrapFileDependingOnType] never
    throws. *)
Theorem classified_kind_renders (file : File) (uv ua up : bool)
  (k location base : string)
  (Hkind : getFileType file uv ua up = Some k) :
  (k = "video" \/ k = "audio" \/ k = "pdf" \/ k = "image") /\
  exists markup, wrapFileDependingOnType location k base = Normal markup.
Proof.
  pose proof (getFileType_kinds _ _ _ _ _ Hkind) as H.
  split; [exact H | now apply kinds_render].
Qed.

(** X6. Turning upload flags on never loses a file: a file accepted
    under some flags is accepted, with the same kind, under any flags
    that include them. *)
Theorem getFileType_flags_monotone (file : File)
  (uv ua up uv' ua' up' : bool) (k : string)
  (Hv : uv = true -> uv' = true) (Ha : ua = true -> ua' = true)
  (Hp : up = true -> up' = true)
  (Hkind : getFileType file uv ua up = Some k) :
  getFileType file uv' ua' up' = Some k.
Proof.
  destruct (prefixes_disjoint (type file)) as (Dv & Da & Di).
  revert Hkind. unfold getFileType; cbv zeta.
  destruct (JS.startsWith (type file) "video/") eqn:E1.
  { destruct uv; cbn [andb].
    - rewrite (Hv eq_refl). auto.
    - destruct (Dv eq_refl) as (-> & -> & Hpdf).
      apply String.eqb_neq in Hpdf. rewrite Hpdf. discriminate. }
  cbn [andb].
  destruct (JS.startsWith (type file) "audio/") eqn:E2.
  { destruct ua; cbn [andb].
    - rewrite (Ha eq_refl). auto.
    - destruct (Da eq_refl) as (_ & -> & Hpdf).
      apply String.eqb_neq in Hpdf. rewrite Hpdf. discriminate. }
  cbn [andb].
  destruct (String.eqb (type file) "application/pdf") eqn:E3.
  { destruct up; cbn [andb].
    - rewrite (Hp eq_refl). auto.
    - apply String.eqb_eq in E3. rewrite E3. discriminate. }
  cbn [andb]. auto.
Qed.

End ClassifierFurther.

(** The theorems at work: a video, with video uploads on. *)
Lemma classified_kind_renders_witness :
  getFileType (mkFile "clip.mp4" "video/mp4" []) true false false
  = Some "video" /\
  exists markup,
    wrapFileDependingOnType "clips/clip.mp4" "video" "media" = Normal markup.
Proof.
  assert (H : getFileType (mkFile "clip.mp4" "video/mp4" []) true false false
              = Some "video") by reflexivity.
  split; [exact H|].
  apply (classified_kind_renders _ _ _ _ "video" "clips/clip.mp4" "media" H).
Defined.

Lemma getFileType_flags_monotone_witness :
  getFileType (mkFile "clip.mp4" "video/mp4" []) true false false
  = Some "video" /\
  getFileType (mkFile "clip.mp4" "video/mp4" []) true true true
  = Some "video".
Proof.
  assert (H : getFileType (mkFile "clip.mp4" "video/mp4" []) true false false
              = Some "video") by reflexivity.
  split; [exact H|].
  apply (getFileType_flags_monotone _ true false false true true true
           "video"); auto.
Defined.

(** ** [getFolderPath]: templates without tokens, and dated templates *)

Section FolderFurther.

(** A token starts at a dollar: after a text without dollars its first
    occurrence is right there. *)
Lemma first_at_after_plain (a body rest : string) :
  absent a "$" ->
  first_at (a ++ String "$" body ++ rest) (String "$" body)
    (String.length a).
Proof.
  intros Ha. split; [now exists a, rest|].
  intros x y E.
  destruct (Nat.le_gt_cases (String.length a) (String.length x)) as [|Hl];
    [assumption|].
  exfalso. symmetry in E.
  destruct (append_eq_split x _ a _ E) as (m & -> & Em); [lia|].
  destruct m as [|c m].
  - rewrite append_nil_r in Hl. lia.
  - cbn [append] in Em. injection Em as <- _. now apply (Ha x m).
Qed.

Lemma replace_after_plain (a body rest v : string) :
  absent a "$" -> absent v "$" ->
  JS.replace (a ++ String "$" body ++ rest) (String "$" body) v
  = a ++ v ++ rest.
Proof.
  intros Ha Hv. apply replace_first; [now apply first_at_after_plain|].
  exact Hv.
Qed.

Variable settings : S3UploaderSettings.
Variable fm : option FrontMatterCache.
Variable localUpload : bool.
Variable d : Date.

(** X7. A folder template that holds none of the three tokens is the
    folder path, whatever the date. *)
Theorem getFolderPath_plain
  (Hplain : forall t, In t tokens ->
              absent (baseFolder settings fm localUpload) t) :
  getFolderPath settings fm localUpload d
  = baseFolder settings fm localUpload.
Proof.
  unfold getFolderPath.
  rewrite (replace_absent _ "${year}") by (apply Hplain; simpl; auto).
  rewrite (replace_absent _ "${month}") by (apply Hplain; simpl; auto).
  apply replace_absent, Hplain. simpl; auto.
Qed.

(** X8. A template that names the year, the month and the day in that
    order, with no dollar anywhere else, gives the same text with the
    year, the month on two digits and the day on two digits in their
    places. *)
Theorem getFolderPath_dated (a b c e : string)
  (Ha : absent a "$") (Hb : absent b "$") (Hc : absent c "$")
  (Htemplate : baseFolder settings fm localUpload
               = a ++ "${year}" ++ b ++ "${month}" ++ c ++ "${day}" ++ e) :
  getFolderPath settings fm localUpload d
  = a ++ yearString d ++ b ++ monthString d ++ c ++ dayString d ++ e.
Proof.
  assert (Hy : absent (yearString d) "$")
    by (apply (all_chars_absent numeric);
        [apply yearString_numeric | reflexivity]).
  assert (Hm : absent (monthString d) "$")
    by (apply (all_chars_absent numeric);
        [apply monthString_numeric | reflexivity]).
  assert (Hd : absent (dayString d) "$")
    by (apply (all_chars_absent numeric);
        [apply dayString_numeric | reflexivity]).
  unfold getFolderPath. rewrite Htemplate.
  change ("${year}" ++ b ++ "${month}" ++ c ++ "${day}" ++ e)
    with (String "$" "{year}" ++ (b ++ "${month}" ++ c ++ "${day}" ++ e)).
  rewrite replace_after_plain by assumption.
  replace (a ++ yearString d ++ b ++ "${month}" ++ c ++ "${day}" ++ e)
    with ((a ++ yearString d ++ b)
          ++ String "$" "{month}" ++ (c ++ "${day}" ++ e))
    by (now rewrite !append_assoc).
  rewrite replace_after_plain;
    [|apply absent_char_app; [exact Ha|];
      apply absent_char_app; [exact Hy | exact Hb] | assumption].
  replace ((a ++ yearString d ++ b) ++ monthString d ++ c ++ "${day}" ++ e)
    with ((a ++ yearString d ++ b ++ monthString d ++ c)
          ++ String "$" "{day}" ++ e)
    by (now rewrite !append_assoc).
  rewrite replace_after_plain;
    [|apply absent_char_app; [exact Ha|];
      apply absent_char_app; [exact Hy|];
      apply absent_char_app; [exact Hb|];
      apply absent_char_app; [exact Hm | exact Hc] | assumption].
  now rewrite !append_assoc.
Qed.

End FolderFurther.

(** The theorems at work: the default settings, whose folder is empty,
    and a dated folder in the frontmatter. *)
Lemma getFolderPath_plain_witness :
  (forall t, In t tokens -> absent (baseFolder DEFAULT_SETTINGS None false) t)
  /\ getFolderPath DEFAULT_SETTINGS None false (mkDate 2024 2 7)
     = EmptyString.
Proof.
  assert (H : forall t, In t tokens ->
                absent (baseFolder DEFAULT_SETTINGS None false) t).
  { intros t [<- | [<- | [<- | []]]]; apply indexOf_None; reflexivity. }
  split; [exact H|].
  apply (getFolderPath_plain DEFAULT_SETTINGS None false (mkDate 2024 2 7) H).
Defined.

Lemma getFolderPath_dated_witness :
  absent "img/" "$" /\ absent "/" "$" /\
  baseFolder DEFAULT_SETTINGS
    (Some (mkFrontMatter None None None None None
             (Some "img/${year}/${month}/${day}") None)) false
  = "img/" ++ "${year}" ++ "/" ++ "${month}" ++ "/" ++ "${day}" ++ EmptyString
  /\
  getFolderPath DEFAULT_SETTINGS
    (Some (mkFrontMatter None None None None None
             (Some "img/${year}/${month}/${day}") None)) false
    (mkDate 2024 2 7)
  = "img/" ++ yearString (mkDate 2024 2 7) ++ "/"
    ++ monthString (mkDate 2024 2 7) ++ "/"
    ++ dayString (mkDate 2024 2 7) ++ EmptyString.
Proof.
  assert (H1 : absent "img/" "$") by (apply indexOf_None; reflexivity).
  assert (H2 : absent "/" "$") by (apply indexOf_None; reflexivity).
  split; [exact H1|]. split; [exact H2|]. split; [reflexivity|].
  apply (getFolderPath_dated DEFAULT_SETTINGS _ false (mkDate 2024 2 7)
           "img/" "/" "/" EmptyString H1 H2 H2).
  reflexivity.
Defined.

(** ** [onload]: the default endpoint *)

Section EndpointFurther.

(** X9. Without a custom endpoint and without a custom image URL, for a
    bucket name without a dollar, the public prefix is
    [https://bucket.s3.region.amazonaws.com/] in virtual-hosted style and
    [https://s3.region.amazonaws.com/bucket/] in path style. *)
Theorem onload_default_endpoint (settings : S3UploaderSettings)
  (Hendpoint : useCustomEndpoint settings = false)
  (Himage : useCustomImageUrl settings = false)
  (Hbucket : absent (bucket settings) "$") :
  (forcePathStyle settings = false ->
     imageUrlPath (onload settings)
     = "https://" ++ bucket settings ++ ".s3." ++ region settings
       ++ ".amazonaws.com/") /\
  (forcePathStyle settings = true ->
     imageUrlPath (onload settings)
     = "https://s3." ++ region settings ++ ".amazonaws.com/"
       ++ bucket settings ++ "/").
Proof.
  unfold onload, apiEndpoint. cbn [imageUrlPath set_imageUrlPath].
  rewrite Hendpoint, Himage. split; intros ->.
  - change ("https://s3." ++ region settings ++ ".amazonaws.com/")
      with ("https" ++ "://"
            ++ ("s3." ++ region settings ++ ".amazonaws.com/")).
    rewrite replace_first.
    + cbn [append]. now rewrite !append_assoc.
    + apply indexOf_Some. reflexivity.
    + apply absent_char_app; [apply indexOf_None; reflexivity|].
      apply absent_char_app; [assumption | apply indexOf_None; reflexivity].
  - cbn [append]. now rewrite !append_assoc.
Qed.

End EndpointFurther.

Lemma onload_default_endpoint_witness :
  useCustomEndpoint mixed_settings = false /\
  useCustomImageUrl mixed_settings = false /\
  absent (bucket mixed_settings) "$" /\
  imageUrlPath (onload mixed_settings)
  = "https://" ++ bucket mixed_settings ++ ".s3." ++ region mixed_settings
    ++ ".amazonaws.com/".
Proof.
  assert (H : absent (bucket mixed_settings) "$")
    by (apply indexOf_None; reflexivity).
  split; [reflexivity|]. split; [reflexivity|]. split; [exact H|].
  apply (onload_default_endpoint mixed_settings eq_refl eq_refl H).
  reflexivity.
Defined.

(** ** [replaceText]: a blank target *)

Section BlankTarget.

(** X10. A target that is empty once trimmed matches at the very start
    of the text: the replacement is put in front of the text, which is
    otherwise kept. *)
Theorem replaceText_blank_target (ed : Editor) (target replacement : string)
  (Hblank : JS.trim target = EmptyString) :
  getValue (replaceText ed target replacement)
  = replacement ++ getValue ed.
Proof.
  apply (replaceText_global ed target replacement EmptyString (getValue ed));
    rewrite Hblank.
  - reflexivity.
  - split; [now exists EmptyString, (getValue ed) | intros; simpl; lia].
  - apply absent_empty.
Qed.

End BlankTarget.

Lemma replaceText_blank_target_witness :
  JS.trim ("  " ++ JS.nl) = EmptyString /\
  getValue (replaceText patch_editor ("  " ++ JS.nl) "[lost]")
  = "[lost]" ++ getValue patch_editor.
Proof.
  assert (H : JS.trim ("  " ++ JS.nl) = EmptyString) by reflexivity.
  split; [exact H|].
  apply (replaceText_blank_target patch_editor ("  " ++ JS.nl) "[lost]" H).
Defined.

(** ** The batch: what is dispatched, and how a batch ends *)

Section BatchFurther.

Variable md5hex : list Byte.byte -> string.
Variable settings : S3UploaderSettings.
Variable noteFile : option string.
Variable fm : option FrontMatterCache.

Lemma Forall_update_nth {A : Type} (P : A -> Prop) (l : list A) (i : nat)
  (x : A) :
  Forall P l -> P x -> Forall P (update_nth i x l).
Proof.
  revert i; induction l as [|y l IH]; intros [|i] Hl Hx;
    cbn [update_nth]; try constructor; inversion Hl; subst; auto.
Qed.

Lemma Forall_nth_error {A : Type} (P : A -> Prop) (l : list A) (i : nat)
  (x : A) :
  Forall P l -> nth_error l i = Some x -> P x.
Proof.
  intros Hl Hi. rewrite Forall_forall in Hl.
  apply Hl. now apply nth_error_In in Hi.
Qed.

Lemma launch_derived (files : list File) :
  Forall (derived md5hex settings fm) (map (launch settings fm) files).
Proof.
  induction files as [|f files IH]; constructor; [|assumption].
  unfold launch.
  destruct (getFileType f _ _ _) eqn:E; cbn [derived]; auto.
Qed.

Lemma step_derived (b : Batch) (ev : Event) :
  Forall (derived md5hex settings fm) (uploads b) ->
  Forall (derived md5hex settings fm) (uploads (step md5hex settings fm b ev)).
Proof.
  intros H. destruct ev as [i now | i e | i r | ed']; cbn [step];
    try assumption;
    (destruct (nth_error (uploads b) i) as [[file ty | file ty ph k buf | | ]|]
       eqn:E; try assumption);
    unfold resume; rewrite promiseAll_uploads; cbn [uploads];
    apply Forall_update_nth; try assumption.
  - pose proof (Forall_nth_error _ _ _ _ H E) as Hd. cbn [derived] in Hd.
    unfold afterBytes. cbn [snd derived].
    repeat split; try assumption. now exists now.
  - exact I.
  - unfold afterUpload.
    destruct r as [url|e]; [destruct (wrapFileDependingOnType _ _ _)|];
      exact I.
Qed.

Lemma run_derived (evs : list Event) (b : Batch) :
  Forall (derived md5hex settings fm) (uploads b) ->
  Forall (derived md5hex settings fm)
    (uploads (run md5hex settings fm b evs)).
Proof.
  revert b; induction evs as [|ev evs IH]; intros b H; [exact H|].
  apply IH, step_derived, H.
Qed.

Lemma pasteHandler_derived (ev : PasteEvent) (ed : Editor) :
  Forall (derived md5hex settings fm)
    (uploads (pasteHandler settings noteFile fm ev ed)).
Proof.
  unfold pasteHandler.
  repeat match goal with
         | |- context [if ?c then _ else _] => destruct c
         end; try (constructor; fail).
  rewrite promiseAll_uploads. apply launch_derived.
Qed.

(** The name follows the folder in a key. *)
Lemma key_ends_with_name (folder nm : string) :
  exists prefix, key folder nm = prefix ++ nm.
Proof.
  unfold key. destruct (JS.truthy folder).
  - exists (folder ++ "/"). now rewrite append_assoc.
  - now exists EmptyString.
Qed.

(** X11. Whatever the events so far, an upload that waits for its
    storage call holds the kind the classifier gave the file, the bytes
    of the file, the placeholder of the derived name, and a key that is
    the folder resolved at some date followed by that name. *)
Theorem dispatched_upload_shape (ev : PasteEvent) (ed : Editor)
  (evs : list Event) (i : nat) (file : File) (thisType ph k : string)
  (buf : list Byte.byte)
  (Hwait : nth_error
             (uploads (run md5hex settings fm
                         (pasteHandler settings noteFile fm ev ed) evs)) i
           = Some (AwaitUpload file thisType ph k buf)) :
  let nm := newFileName md5hex file (bytes file) in
  getFileType file (uploadVideo_ settings fm) (uploadAudio_ settings fm)
    (uploadPdf_ settings fm) = Some thisType /\
  buf = bytes file /\
  ph = "![uploading...](" ++ nm ++ ")" ++ JS.nl /\
  (exists now,
     k = key (getFolderPath settings fm (localUpload_ settings fm) now) nm) /\
  (exists prefix, k = prefix ++ nm).
Proof.
  cbv zeta.
  pose proof (Forall_nth_error _ _ _ _
                (run_derived evs _ (pasteHandler_derived ev ed)) Hwait)
    as (Hk & Hb & Hp & now & Hkey).
  repeat split; try assumption.
  - now exists now.
  - rewrite Hkey. apply key_ends_with_name.
Qed.

(** X12. Whatever the events so far, when the storage call of a waiting
    upload succeeds, the renderer does not throw: the placeholder is
    replaced by the embed of the location, not by an error line, and the
    upload is finished. *)
Theorem upload_success_embeds (ev : PasteEvent) (ed : Editor)
  (evs : list Event) (i : nat) (file : File) (thisType ph k : string)
  (buf : list Byte.byte) (location : string)
  (Hwait : nth_error
             (uploads (run md5hex settings fm
                         (pasteHandler settings noteFile fm ev ed) evs)) i
           = Some (AwaitUpload file thisType ph k buf)) :
  let b := run md5hex settings fm
             (pasteHandler settings noteFile fm ev ed) evs in
  let b' := step md5hex settings fm b (UploadSettled i (Normal location)) in
  exists markup,
    wrapFileDependingOnType location thisType
      (if localUpload_ settings fm then localUploadFolder settings
       else EmptyString) = Normal markup /\
    editor b' = replaceText (editor b) ph markup /\
    nth_error (uploads b') i = Some Finished.
Proof.
  cbv zeta.
  pose proof (Forall_nth_error _ _ _ _
                (run_derived evs _ (pasteHandler_derived ev ed)) Hwait)
    as (Hk & _).
  apply getFileType_kinds in Hk.
  destruct (kinds_render location
              (if localUpload_ settings fm then localUploadFolder settings
               else EmptyString) thisType Hk) as [markup Hm].
  exists markup. split; [exact Hm|].
  cbn [step]. rewrite Hwait. unfold resume.
  rewrite promiseAll_editor, promiseAll_uploads. cbn [editor uploads].
  unfold afterUpload. rewrite Hm. cbn [fst snd].
  split; [reflexivity|]. now apply (update_nth_same _ _ _ _ Hwait).
Qed.

Lemma launch_unsupported (files : list File) :
  (forall f, In f files ->
     getFileType f (uploadVideo_ settings fm) (uploadAudio_ settings fm)
       (uploadPdf_ settings fm) = None) ->
  Forall (fun u => u = Finished) (map (launch settings fm) files).
Proof.
  intros H. induction files as [|f files IH]; constructor.
  - unfold launch. rewrite (H f); [reflexivity | now left].
  - apply IH. intros g Hg. apply H. now right.
Qed.

Lemma all_finished_fulfilled (l : list Upload) :
  Forall (fun u => u = Finished) l ->
  firstRejection l = None /\ forallb isFulfilled l = true.
Proof.
  induction 1 as [|u l -> _ [IH1 IH2]]; [split; reflexivity|].
  cbn [firstRejection forallb isFulfilled]. now rewrite IH2.
Qed.

Lemma step_finished (b : Batch) (ev : Event) :
  Forall (fun u => u = Finished) (uploads b) ->
  eventUpload ev <> None -> step md5hex settings fm b ev = b.
Proof.
  intros H Hev.
  destruct ev as [i now | i e | i r | ed']; cbn [step eventUpload] in *;
    try congruence;
    (destruct (nth_error (uploads b) i) as [u|] eqn:E; [|reflexivity];
     rewrite (Forall_nth_error _ _ _ _ H E); reflexivity).
Qed.

(** X13. A batch whose files are all of unsupported types is over at
    once: nothing is inserted in the text, the notice is shown, the
    aggregate is fulfilled, and no later event for an upload changes
    anything. *)
Theorem unsupported_batch_completes (ev : PasteEvent) (ed : Editor)
  (evs : list Event)
  (Hstart : startsBatch settings noteFile fm ev)
  (Hnone : forall f, In f (eventFiles ev) ->
             getFileType f (uploadVideo_ settings fm)
               (uploadAudio_ settings fm) (uploadPdf_ settings fm) = None)
  (Hevs : Forall (fun e => eventUpload e <> None) evs) :
  let b := pasteHandler settings noteFile fm ev ed in
  editor b = ed /\ notices b = ALL_PROCESSED /\ aggregate b = Fulfilled /\
  run md5hex settings fm b evs = b.
Proof.
  cbv zeta. rewrite (pasteHandler_starts settings noteFile fm ev ed Hstart).
  pose proof (launch_unsupported _ Hnone) as Hfin.
  destruct (all_finished_fulfilled _ Hfin) as [Hr Hf].
  unfold promiseAll at 1 2 3. cbn [aggregate uploads]. rewrite Hr, Hf.
  cbn [editor notices aggregate app]. repeat split.
  unfold promiseAll. cbn [aggregate uploads]. rewrite Hr, Hf.
  induction Hevs as [|e evs He _ IH]; [reflexivity|].
  cbn [run fold_left]. rewrite step_finished; [exact IH | exact Hfin | exact He].
Qed.

Lemma promiseAll_settled (b : Batch) :
  aggregate b <> Pending -> promiseAll b = b.
Proof. unfold promiseAll. destruct (aggregate b); congruence. Qed.

Lemma step_settled (b : Batch) (ev : Event) :
  aggregate b <> Pending ->
  aggregate (step md5hex settings fm b ev) = aggregate b /\
  notices (step md5hex settings fm b ev) = notices b.
Proof.
  intros H. destruct ev as [i now | i e | i r | ed']; cbn [step];
    try (split; reflexivity);
    (destruct (nth_error (uploads b) i) as [[| | | ]|];
     try (split; reflexivity);
     unfold resume; rewrite promiseAll_settled; auto).
Qed.

(** X14. Once the aggregate promise is settled, fulfilled or rejected,
    no event changes it and no event adds a notice: the notice is shown
    at most once, and never after a rejection. *)
Theorem settled_aggregate_final (b : Batch) (evs : list Event)
  (Hsettled : aggregate b <> Pending) :
  aggregate (run md5hex settings fm b evs) = aggregate b /\
  notices (run md5hex settings fm b evs) = notices b.
Proof.
  revert b Hsettled; induction evs as [|ev evs IH]; intros b H;
    [split; reflexivity|].
  cbn [run fold_left]. destruct (step_settled b ev H) as [Ha Hn].
  destruct (IH (step md5hex settings fm b ev)) as [Ha' Hn'];
    [congruence|].
  unfold run in *. split; congruence.
Qed.

End BatchFurther.

(** The theorems at work, on the mixed paste. *)
Lemma dispatched_upload_shape_witness :
  nth_error
    (uploads (run patch_digest mixed_settings None
                (pasteHandler mixed_settings (Some "note.md") None
                   mixed_event blank_editor) first_read)) 0
  = Some (AwaitUpload patch_file "image"
            (placeholder "0cc175b9c0f1b6a831c399e269772661.png")
            "0cc175b9c0f1b6a831c399e269772661.png" [Byte.x61]) /\
  exists prefix,
    "0cc175b9c0f1b6a831c399e269772661.png"
    = prefix ++ newFileName patch_digest patch_file (bytes patch_file).
Proof.
  assert (H : nth_error
                (uploads (run patch_digest mixed_settings None
                            (pasteHandler mixed_settings (Some "note.md") None
                               mixed_event blank_editor) first_read)) 0
              = Some (AwaitUpload patch_file "image"
                        (placeholder "0cc175b9c0f1b6a831c399e269772661.png")
                        "0cc175b9c0f1b6a831c399e269772661.png" [Byte.x61]))
    by reflexivity.
  split; [exact H|].
  apply (dispatched_upload_shape patch_digest mixed_settings (Some "note.md")
           None mixed_event blank_editor first_read 0 _ _ _ _ _ H).
Defined.

Lemma upload_success_embeds_witness :
  nth_error
    (uploads (run patch_digest mixed_settings None
                (pasteHandler mixed_settings (Some "note.md") None
                   mixed_event blank_editor) first_read)) 0
  = Some (AwaitUpload patch_file "image"
            (placeholder "0cc175b9c0f1b6a831c399e269772661.png")
            "0cc175b9c0f1b6a831c399e269772661.png" [Byte.x61]) /\
  exists markup,
    wrapFileDependingOnType "https://cdn.example.com/a.png" "image"
      (if localUpload_ mixed_settings None
       then localUploadFolder mixed_settings else EmptyString)
    = Normal markup /\
    editor (step patch_digest mixed_settings None
              (run patch_digest mixed_settings None
                 (pasteHandler mixed_settings (Some "note.md") None
                    mixed_event blank_editor) first_read)
              (UploadSettled 0 (Normal "https://cdn.example.com/a.png")))
    = replaceText
        (editor (run patch_digest mixed_settings None
                   (pasteHandler mixed_settings (Some "note.md") None
                      mixed_event blank_editor) first_read))
        (placeholder "0cc175b9c0f1b6a831c399e269772661.png") markup /\
    nth_error
      (uploads (step patch_digest mixed_settings None
                  (run patch_digest mixed_settings None
                     (pasteHandler mixed_settings (Some "note.md") None
                        mixed_event blank_editor) first_read)
                  (UploadSettled 0 (Normal "https://cdn.example.com/a.png"))))
      0
    = Some Finished.
Proof.
  assert (H : nth_error
                (uploads (run patch_digest mixed_settings None
                            (pasteHandler mixed_settings (Some "note.md") None
                               mixed_event blank_editor) first_read)) 0
              = Some (AwaitUpload patch_file "image"
                        (placeholder "0cc175b9c0f1b6a831c399e269772661.png")
                        "0cc175b9c0f1b6a831c399e269772661.png" [Byte.x61]))
    by reflexivity.
  split; [exact H|].
  apply (upload_success_embeds patch_digest mixed_settings (Some "note.md")
           None mixed_event blank_editor first_read 0 _ _ _ _ _
           "https://cdn.example.com/a.png" H).
Defined.

Lemma unsupported_batch_completes_witness :
  startsBatch mixed_settings (Some "note.md") None unsupported_event /\
  notices (pasteHandler mixed_settings (Some "note.md") None
             unsupported_event blank_editor) = ALL_PROCESSED /\
  run patch_digest mixed_settings None
    (pasteHandler mixed_settings (Some "note.md") None unsupported_event
       blank_editor)
    [BytesRead 0 (mkDate 2024 2 7); UploadSettled 0 (Normal "x")]
  = pasteHandler mixed_settings (Some "note.md") None unsupported_event
      blank_editor.
Proof.
  assert (Hs : startsBatch mixed_settings (Some "note.md") None
                 unsupported_event)
    by (repeat split; try reflexivity; discriminate).
  assert (Hn : forall f, In f (eventFiles unsupported_event) ->
                 getFileType f (uploadVideo_ mixed_settings None)
                   (uploadAudio_ mixed_settings None)
                   (uploadPdf_ mixed_settings None) = None)
    by (intros f [<- | []]; reflexivity).
  assert (He : Forall (fun e => eventUpload e <> None)
                 [BytesRead 0 (mkDate 2024 2 7);
                  UploadSettled 0 (Normal "x")])
    by (repeat constructor; discriminate).
  split; [exact Hs|].
  destruct (unsupported_batch_completes patch_digest mixed_settings
              (Some "note.md") None unsupported_event blank_editor _
              Hs Hn He) as (_ & Hnot & _ & Hrun).
  split; [exact Hnot | exact Hrun].
Defined.

Lemma settled_aggregate_final_witness :
  aggregate (pasteHandler mixed_settings (Some "note.md") None
               unsupported_event blank_editor) <> Pending /\
  notices (run patch_digest mixed_settings None
             (pasteHandler mixed_settings (Some "note.md") None
                unsupported_event blank_editor)
             [UserEdit patch_editor; BytesFailed 0 (mkError "late")])
  = notices (pasteHandler mixed_settings (Some "note.md") None
               unsupported_event blank_editor).
Proof.
  assert (H : aggregate (pasteHandler mixed_settings (Some "note.md") None
                           unsupported_event blank_editor) <> Pending)
    by discriminate.
  split; [exact H|].
  apply (settled_aggregate_final patch_digest mixed_settings None _
           [UserEdit patch_editor; BytesFailed 0 (mkError "late")] H).
Defined.

(** ** From the storage call to the text *)

Section Scenarios.

Context {W : Type} (host : Host W).
Variable md5hex : list Byte.byte -> string.
Variable settings : S3UploaderSettings.
Variable fm : option FrontMatterCache.

Lemma settle_editor (b : Batch) (i : nat) (file : File)
  (thisType ph k : string) (buf : list Byte.byte) (location markup : string) :
  nth_error (uploads b) i = Some (AwaitUpload file thisType ph k buf) ->
  wrapFileDependingOnType location thisType
    (if localUpload_ settings fm then localUploadFolder settings
     else EmptyString) = Normal markup ->
  editor (step md5hex settings fm b (UploadSettled i (Normal location)))
  = replaceText (editor b) ph markup.
Proof.
  intros Hi Hm. cbn [step]. rewrite Hi. unfold resume.
  rewrite promiseAll_editor. cbn [editor]. unfold afterUpload.
  now rewrite Hm.
Qed.

(** X15. In remote mode, when the request of a waiting image succeeds,
    the location is the public prefix followed by the key, and the
    placeholder becomes [![image](prefix key)]. *)
Theorem remote_image_embed (b : Batch) (i : nat) (file : File)
  (ph k : string) (buf : list Byte.byte) (st st' : W * list Call)
  (location : string)
  (Hmode : localUpload_ settings fm = false)
  (Hwait : nth_error (uploads b) i
           = Some (AwaitUpload file "image" ph k buf))
  (Hsent : uploadFile host settings (localUpload_ settings fm) file k buf st
           = (Normal location, st')) :
  location = imageUrlPath settings ++ k /\
  editor (step md5hex settings fm b (UploadSettled i (Normal location)))
  = replaceText (editor b) ph
      ("![image](" ++ imageUrlPath settings ++ k ++ ")").
Proof.
  assert (Hloc : location = imageUrlPath settings ++ k).
  { revert Hsent. rewrite Hmode. unfold uploadFile, bind, await, ret.
    cbn [negb fst snd].
    destruct (s3_send host _ (fst st)) as [[[]|e] w1]; [|discriminate].
    now intros [= <- _]. }
  split; [exact Hloc|].
  rewrite (settle_editor b i file "image" ph k buf location
             ("![image](" ++ location ++ ")") Hwait eq_refl).
  now rewrite Hloc, !append_assoc.
Qed.

(** X16. In local mode, when the write of a waiting video or audio file
    succeeds, the source of the tag is the path returned by the write,
    after [file://folder/] when the local folder of the settings is not
    empty: the folder of the settings, also when the frontmatter names
    another folder for the upload. *)
Theorem local_media_src (b : Batch) (i : nat) (file : File)
  (tag ph k : string) (buf : list Byte.byte) (st st' : W * list Call)
  (path : string)
  (Hmode : localUpload_ settings fm = true)
  (Htag : tag = "video" \/ tag = "audio")
  (Hwait : nth_error (uploads b) i = Some (AwaitUpload file tag ph k buf))
  (Hwritten : uploadFile host settings (localUpload_ settings fm) file k buf
                st = (Normal path, st')) :
  ((JS.startsWith k "/" = false /\ path = k) \/ k = "/" ++ path) /\
  editor (step md5hex settings fm b (UploadSettled i (Normal path)))
  = replaceText (editor b) ph
      ("<" ++ tag ++ " "
       ++ attr "src" (srcPrefix (localUploadFolder settings) ++ path)
       ++ " controls />").
Proof.
  split.
  - revert Hwritten. rewrite Hmode. unfold uploadFile. cbn [negb].
    set (fp := JS.substring k 0 _).
    unfold bind, await, ret. cbn [fst snd].
    destruct (adapter_exists host fp (fst st)) as [[present|e] w1];
      cbn [fst snd]; [|discriminate].
    assert (Hpath : forall q,
              (if JS.startsWith k "/" then JS.slice k 1 else k) = q ->
              (JS.startsWith k "/" = false /\ q = k) \/ k = "/" ++ q).
    { intros q <-. destruct (JS.startsWith k "/") eqn:E; [right | now left].
      apply startsWith_inv in E as [r ->]. reflexivity. }
    destruct (negb present && JS.truthy fp); cbn [fst snd].
    + destruct (vault_createFolder host fp w1) as [[[]|e] w2]; cbn [fst snd];
        [|discriminate].
      destruct (adapter_writeBinary host k buf w2) as [[[]|e] w3];
        cbn [fst snd]; [|discriminate].
      intros [= H _]. now apply Hpath.
    + destruct (adapter_writeBinary host k buf w1) as [[[]|e] w2];
        cbn [fst snd]; [|discriminate].
      intros [= H _]. now apply Hpath.
  - apply (settle_editor b i file tag ph k buf path _ Hwait).
    rewrite Hmode. unfold srcPrefix, attr, wrapFileDependingOnType.
    destruct Htag as [-> | ->]; cbn [String.eqb Ascii.eqb Bool.eqb];
      f_equal; unfold JS.dq; cbn [append];
      repeat (rewrite append_assoc; cbn [append]); reflexivity.
Qed.

End Scenarios.

Lemma remote_image_embed_witness :
  localUpload_ mixed_settings None = false /\
  editor (step patch_digest mixed_settings None
            (run patch_digest mixed_settings None
               (pasteHandler mixed_settings (Some "note.md") None
                  mixed_event blank_editor) first_read)
            (UploadSettled 0
               (Normal (imageUrlPath mixed_settings
                        ++ "0cc175b9c0f1b6a831c399e269772661.png"))))
  = replaceText
      (editor (run patch_digest mixed_settings None
                 (pasteHandler mixed_settings (Some "note.md") None
                    mixed_event blank_editor) first_read))
      (placeholder "0cc175b9c0f1b6a831c399e269772661.png")
      ("![image](" ++ imageUrlPath mixed_settings
       ++ "0cc175b9c0f1b6a831c399e269772661.png" ++ ")").
Proof.
  split; [reflexivity|].
  apply (remote_image_embed empty_vault patch_digest mixed_settings None
           (run patch_digest mixed_settings None
              (pasteHandler mixed_settings (Some "note.md") None
                 mixed_event blank_editor) first_read)
           0 patch_file
           (placeholder "0cc175b9c0f1b6a831c399e269772661.png")
           "0cc175b9c0f1b6a831c399e269772661.png" [Byte.x61] (tt, [])
           (tt, [CallSend {| Bucket := "b";
                             Key := "0cc175b9c0f1b6a831c399e269772661.png";
                             Body := [Byte.x61];
                             ContentType := "image/png" |}])
           _ eq_refl eq_refl eq_refl).
Defined.

Lemma local_media_src_witness :
  localUpload_ local_settings None = true /\
  editor (step patch_digest local_settings None local_batch
            (UploadSettled 0
               (Normal "media/92eb5ffee6ae2fec3ad71c777531578f.mp4")))
  = replaceText (editor local_batch)
      (placeholder "92eb5ffee6ae2fec3ad71c777531578f.mp4")
      ("<" ++ "video" ++ " "
       ++ attr "src"
            (srcPrefix "media"
             ++ "media/92eb5ffee6ae2fec3ad71c777531578f.mp4")
       ++ " controls />").
Proof.
  split; [reflexivity|].
  apply (local_media_src full_vault patch_digest local_settings None
           local_batch 0 (mkFile "clip.mp4" "video/mp4" [Byte.x62])
           "video" (placeholder "92eb5ffee6ae2fec3ad71c777531578f.mp4")
           "media/92eb5ffee6ae2fec3ad71c777531578f.mp4"
           [Byte.x62] (tt, [])
           (tt, [CallExists "media";
                 CallWriteBinary "media/92eb5ffee6ae2fec3ad71c777531578f.mp4"
                   [Byte.x62]])
           "media/92eb5ffee6ae2fec3ad71c777531578f.mp4"
           eq_refl (or_introl eq_refl) eq_refl eq_refl).
Defined.

(** ** The settings tab: what the URL fields store *)

Section UrlFields.

Lemma matchesScheme_has (value : string) :
  matchesScheme value = true <-> has_scheme value.
Proof.
  unfold matchesScheme, has_scheme. split.
  - destruct (JS.indexOf value "http://") as [n|] eqn:E1.
    + intros _. left. apply indexOf_Some in E1 as [(a & b & -> & _) _].
      now exists a, b.
    + destruct (JS.indexOf value "https://") as [n|] eqn:E2; [|discriminate].
      intros _. right. apply indexOf_Some in E2 as [(a & b & -> & _) _].
      now exists a, b.
  - intros [(a & b & ->) | (a & b & ->)].
    + destruct (JS.indexOf _ "http://") eqn:E; [reflexivity|].
      apply indexOf_None in E. now destruct (E a b).
    + destruct (JS.indexOf _ "http://"); [reflexivity|].
      destruct (JS.indexOf _ "https://") eqn:E; [reflexivity|].
      apply indexOf_None in E. now destruct (E a b).
Qed.

(** What [forceSlash] does to a value that is not empty. *)
Lemma forceSlash_cases (s : string) :
  s <> EmptyString ->
  (exists r, s = r ++ "/" /\ forceSlash s = s) \/
  ((forall r, s <> r ++ "/") /\ forceSlash s = s ++ "/").
Proof.
  induction s as [|c rest IH]; [congruence|]. intros _.
  destruct rest as [|c' rest'].
  - cbn [forceSlash]. destruct (Ascii.eqb_spec c "/") as [->|Hc].
    + left. now exists EmptyString.
    + right. split; [|reflexivity].
      intros [|x r] E; cbn [append] in E.
      * injection E as E1. congruence.
      * injection E as _ E2. now destruct r.
  - destruct IH as [(r & Hr & Hf) | (Hr & Hf)]; [discriminate | |].
    + left. exists (String c r).
      change (forceSlash (String c (String c' rest')))
        with (String c (forceSlash (String c' rest'))).
      rewrite Hf. cbn [append]. now rewrite <- Hr.
    + right.
      change (forceSlash (String c (String c' rest')))
        with (String c (forceSlash (String c' rest'))).
      rewrite Hf. split; [|reflexivity].
      intros [|x r] E; cbn [append] in E.
      * discriminate E.
      * injection E as _ E2. now apply (Hr r).
Qed.

Lemma trimStart_keeps (a : string) (c : ascii) (t : string) :
  JS.is_white c = false ->
  exists a', JS.trimStart (a ++ String c t) = a' ++ String c t.
Proof.
  intros Hc. induction a as [|x a [a' IH]].
  - exists EmptyString. cbn [append JS.trimStart]. now rewrite Hc.
  - cbn [append JS.trimStart]. destruct (JS.is_white x).
    + now exists a'.
    + now exists (String x a).
Qed.

Lemma trimStart_idempotent (s : string) :
  JS.trimStart (JS.trimStart s) = JS.trimStart s.
Proof.
  induction s as [|c s IH]; [reflexivity|]. cbn [JS.trimStart].
  destruct (JS.is_white c) eqn:E; [exact IH|].
  cbn [JS.trimStart]. now rewrite E.
Qed.

Lemma trimEnd_slash (r : string) : JS.trimEnd (r ++ "/") = r ++ "/".
Proof. apply (trimEnd_app r "/" EmptyString); reflexivity. Qed.

(** Trimming a value that ends with a slash only drops white space in
    front of it, and the slash stays last. *)
Lemma trim_slash (r : string) :
  JS.trim (r ++ "/") = JS.trimStart (r ++ "/") /\
  exists r', JS.trim (r ++ "/") = r' ++ "/".
Proof.
  destruct (trimStart_keeps r "/" EmptyString eq_refl) as [r' E].
  unfold JS.trim. change (String "/" EmptyString) with "/" in E.
  rewrite E, trimEnd_slash. split; [reflexivity | now exists r'].
Qed.

Lemma has_scheme_app (s t : string) : has_scheme s -> has_scheme (s ++ t).
Proof.
  intros [(a & b & ->) | (a & b & ->)]; [left | right];
    exists a, (b ++ t); now rewrite !append_assoc.
Qed.

Lemma has_scheme_trimStart (s : string) :
  has_scheme s -> has_scheme (JS.trimStart s).
Proof.
  intros [(a & b & ->) | (a & b & ->)].
  - destruct (trimStart_keeps a "h" ("ttp://" ++ b) eq_refl) as [a' E].
    left. now exists a', b.
  - destruct (trimStart_keeps a "h" ("ttps://" ++ b) eq_refl) as [a' E].
    right. now exists a', b.
Qed.

(** The value before it is trimmed: it has a scheme and a final slash. *)
Lemma urlOnChange_untrimmed (value : string) :
  exists r,
    forceSlash (if matchesScheme value then value else "https://" ++ value)
    = r ++ "/" /\
    has_scheme (r ++ "/").
Proof.
  set (v := if matchesScheme value then value else "https://" ++ value).
  assert (Hs : has_scheme v).
  { unfold v. destruct (matchesScheme value) eqn:E.
    - now apply matchesScheme_has.
    - right. now exists EmptyString, value. }
  assert (Hne : v <> EmptyString).
  { destruct Hs as [(a & b & E) | (a & b & E)]; rewrite E;
      destruct a; discriminate. }
  destruct (forceSlash_cases v Hne) as [(r & Hr & Hf) | (_ & Hf)].
  - exists r. rewrite Hf, <- Hr. auto.
  - exists v. rewrite Hf. split; [reflexivity | now apply has_scheme_app].
Qed.

(** The value stored has a scheme. *)
Lemma urlOnChange_scheme (value : string) :
  matchesScheme (urlOnChange value) = true.
Proof.
  destruct (urlOnChange_untrimmed value) as (r & Hr & Hs).
  unfold urlOnChange; cbv zeta. rewrite Hr.
  destruct (trim_slash r) as [Ht _].
  apply matchesScheme_has. rewrite Ht. now apply has_scheme_trimStart.
Qed.

(** X17. Whatever is typed in the endpoint or image URL field, the
    value stored has [http://] or [https://] somewhere in it and ends
    with a slash. *)
Theorem urlOnChange_shape (value : string) :
  matchesScheme (urlOnChange value) = true /\
  (exists r, urlOnChange value = r ++ "/") /\
  (forall settings,
     customEndpoint (customEndpoint_onChange settings value)
     = urlOnChange value /\
     customImageUrl (customImageUrl_onChange settings value)
     = urlOnChange value).
Proof.
  destruct (urlOnChange_untrimmed value) as (r & Hr & Hs).
  split; [apply urlOnChange_scheme | split; [|intros; split; reflexivity]].
  unfold urlOnChange; cbv zeta. rewrite Hr.
  destruct (trim_slash r) as [_ [r' Hr']]. now exists r'.
Qed.

(** X18. Storing a stored value again changes nothing: the handler is
    idempotent. *)
Theorem urlOnChange_idempotent (value : string) :
  urlOnChange (urlOnChange value) = urlOnChange value.
Proof.
  destruct (urlOnChange_untrimmed value) as (r & Hr & Hs).
  assert (Hu : urlOnChange value = JS.trimStart (r ++ "/")).
  { unfold urlOnChange; cbv zeta. rewrite Hr. apply trim_slash. }
  destruct (trim_slash r) as [Ht [r' Hr']].
  assert (Hu' : urlOnChange value = r' ++ "/")
    by (unfold urlOnChange; cbv zeta; now rewrite Hr).
  assert (Hm : matchesScheme (urlOnChange value) = true).
  { apply matchesScheme_has. rewrite Hu. now apply has_scheme_trimStart. }
  unfold urlOnChange at 1; cbv zeta. rewrite Hm.
  assert (Hf : forceSlash (urlOnChange value) = urlOnChange value).
  { rewrite Hu'.
    destruct (forceSlash_cases (r' ++ "/")) as [(_ & _ & Hf) | (Hno & _)];
      [destruct r'; discriminate | exact Hf | now destruct (Hno r')]. }
  rewrite Hf. rewrite Hu' at 1.
  destruct (trim_slash r') as [Ht' _]. rewrite Ht', <- Hu'.
  rewrite Hu. apply trimStart_idempotent.
Qed.

(** X19. A value without a scheme gets [https://] in front before it is
    trimmed, so the white space typed around it is kept: the value
    stored is [https://value/], without the added slash when the value
    is empty or ends with one already. *)
Theorem urlOnChange_bare (value : string)
  (Hbare : matchesScheme value = false) :
  (value = EmptyString -> urlOnChange value = "https://") /\
  (forall r, value = r ++ "/" -> urlOnChange value = "https://" ++ value) /\
  ((forall r, value <> r ++ "/") -> value <> EmptyString ->
     urlOnChange value = "https://" ++ value ++ "/").
Proof.
  assert (Htrim : forall s r, "https://" ++ s = r ++ "/" ->
            JS.trim ("https://" ++ s) = "https://" ++ s).
  { intros s r E. unfold JS.trim. cbn [append].
    rewrite trimStart_nonwhite by reflexivity.
    change (JS.trimEnd ("https://" ++ s) = "https://" ++ s).
    rewrite E. apply trimEnd_slash. }
  unfold urlOnChange; cbv zeta. rewrite Hbare.
  split; [|split].
  - intros ->. reflexivity.
  - intros r ->.
    destruct (forceSlash_cases ("https://" ++ r ++ "/"))
      as [(_ & _ & Hf) | (Hno & _)]; [discriminate | |].
    + rewrite Hf. apply (Htrim _ ("https://" ++ r)).
      now rewrite !append_assoc.
    + destruct (Hno ("https://" ++ r)). now rewrite !append_assoc.
  - intros Hno Hne.
    destruct (forceSlash_cases ("https://" ++ value))
      as [(r & Hr & _) | (_ & Hf)]; [discriminate | |].
    + exfalso.
      assert (Hlen : String.length "https://" <= String.length r).
      { apply (f_equal String.length) in Hr.
        rewrite !length_append in Hr.
        destruct value; [congruence|]. simpl in *. lia. }
      destruct (append_eq_split "https://" value r "/" Hr Hlen)
        as (m & _ & Hm).
      now apply (Hno m).
    + rewrite Hf.
      replace (("https://" ++ value) ++ "/")
        with ("https://" ++ value ++ "/") by now rewrite append_assoc.
      apply (Htrim _ ("https://" ++ value)). now rewrite !append_assoc.
Qed.

End UrlFields.

Lemma urlOnChange_bare_witness :
  matchesScheme " s3.myhost.com " = false /\
  urlOnChange " s3.myhost.com " = "https://" ++ " s3.myhost.com " ++ "/".
Proof.
  assert (H : matchesScheme " s3.myhost.com " = false) by reflexivity.
  split; [exact H|].
  apply (urlOnChange_bare " s3.myhost.com " H).
  - intros r E. apply (f_equal (fun s => JS.lastIndexOf s "/")) in E.
    assert (Hl : JS.lastIndexOf (r ++ "/") "/" = Some (String.length r))
      by (apply (lastIndexOf_joined r EmptyString), indexOf_None;
          reflexivity).
    cbv beta in E. rewrite Hl in E. discriminate E.
  - discriminate.
Defined.

(** ** Settings across a reload *)

(** X20. What [onload] derives depends on nothing it wrote before: the
    stored prefix is never read, [onload] is idempotent, and settings
    saved and loaded again give the same settings after [onload]. *)
Theorem reload_stable (settings : S3UploaderSettings) :
  (forall stale, onload (set_imageUrlPath settings stale) = onload settings) /\
  onload (onload settings) = onload settings /\
  onload (loadSettings (Some (saveSettings settings))) = onload settings /\
  onload (loadSettings (Some (saveSettings (onload settings))))
  = onload settings.
Proof.
  destruct settings. repeat split.
Qed.



(** ** The HTTP handler *)

Section HttpFacts.

Import Http.

Lemma getProperty_setProperty (o : Entries) (k' v k : string) :
  getProperty (setProperty k' v o) k
  = if String.eqb k' k then Some v else getProperty o k.
Proof.
  induction o as [|[k0 v0] o IH]; cbn [setProperty getProperty].
  - reflexivity.
  - destruct (String.eqb_spec k0 k') as [->|Hne]; cbn [getProperty].
    + now destruct (String.eqb k' k).
    + rewrite IH. destruct (String.eqb_spec k0 k) as [->|]; [|reflexivity].
      destruct (String.eqb_spec k' k); [congruence | reflexivity].
Qed.

Lemma getProperty_fold (l o : Entries) (k : string) :
  getProperty
    (fold_left (fun o kv => setProperty (fst kv) (snd kv) o) l o) k
  = lastValue k l (getProperty o k).
Proof.
  revert o; induction l as [|[k' v'] l IH]; intros o; [reflexivity|].
  unfold lastValue. cbn [fold_left fst snd].
  rewrite IH, getProperty_setProperty. reflexivity.
Qed.

(** Reading a key of [Object.fromEntries(l)] gives the value the key
    got last in [l]. *)
Lemma getProperty_fromEntries (l : Entries) (k : string) :
  getProperty (fromEntries l) k = lastValue k l None.
Proof. apply getProperty_fold. Qed.

Lemma In_setProperty (o : Entries) (k v : string) (x : string * string) :
  In x (setProperty k v o) -> x = (k, v) \/ In x o.
Proof.
  induction o as [|[k0 v0] o IH]; cbn [setProperty].
  - intros [<-|[]]. now left.
  - destruct (String.eqb_spec k0 k) as [->|Hne]; intros [<-|H].
    + now left.
    + right. now right.
    + right. now left.
    + destruct (IH H); [now left | right; now right].
Qed.

Lemma In_fold (l o : Entries) (x : string * string) :
  In x (fold_left (fun o kv => setProperty (fst kv) (snd kv) o) l o) ->
  In x l \/ In x o.
Proof.
  revert o; induction l as [|[k v] l IH]; intros o; cbn [fold_left fst snd].
  - now right.
  - intros H. destruct (IH _ H) as [H'|H']; [left; now right|].
    destruct (In_setProperty _ _ _ _ H') as [->|]; [left; now left|].
    now right.
Qed.

Lemma In_fromEntries (l : Entries) (x : string * string) :
  In x (fromEntries l) -> In x l.
Proof. intros H. now destruct (In_fold _ _ _ H). Qed.

Lemma lastValue_filter (k x : string) (l : Entries) (acc : option string) :
  lastValue k (filter forwarded l) acc
  = if forwarded (k, x) then lastValue k l acc else acc.
Proof.
  revert acc; induction l as [|[k' v'] l IH]; intros acc.
  - now destruct (forwarded (k, x)).
  - cbn [filter]. destruct (forwarded (k', v')) eqn:E.
    + unfold lastValue in *. cbn [fold_left fst snd]. rewrite IH.
      destruct (forwarded (k, x)) eqn:E'; [reflexivity|].
      destruct (String.eqb_spec k' k) as [->|]; [|reflexivity].
      unfold forwarded in *. cbn [fst] in *. congruence.
    + rewrite IH. unfold lastValue. cbn [fold_left fst snd].
      destruct (forwarded (k, x)) eqn:E'; [|reflexivity].
      destruct (String.eqb_spec k' k) as [->|]; [|reflexivity].
      unfold forwarded in *. cbn [fst] in *. congruence.
Qed.

Lemma lastValue_In (k v : string) (l : Entries) (acc : option string) :
  In (k, v) l -> exists v', lastValue k l acc = Some v'.
Proof.
  revert acc; induction l as [|[k' v'] l IH]; intros acc; [intros []|].
  unfold lastValue in *. cbn [fold_left fst snd]. intros [[= -> ->]|H].
  - rewrite String.eqb_refl. clear IH.
    generalize v as w. induction l as [|[k1 v1] l IHl]; intros w.
    + now exists w.
    + cbn [fold_left fst snd]. destruct (String.eqb k1 k); apply IHl.
  - now apply IH.
Qed.

Lemma lastValue_None (k : string) (l : Entries) :
  (forall v, ~ In (k, v) l) -> lastValue k l None = None.
Proof.
  induction l as [|[k' v'] l IH]; intros H; [reflexivity|].
  unfold lastValue in *. cbn [fold_left fst snd].
  destruct (String.eqb_spec k' k) as [->|].
  - destruct (H v'). now left.
  - apply IH. intros v Hin. apply (H v). now right.
Qed.

Lemma toLowerChar_idempotent (c : ascii) :
  toLowerChar (toLowerChar c) = toLowerChar c.
Proof.
  destruct c as [[] [] [] [] [] [] [] []]; vm_compute; reflexivity.
Qed.

Lemma toLowerCase_idempotent (s : string) :
  toLowerCase (toLowerCase s) = toLowerCase s.
Proof.
  induction s as [|c s IH]; cbn [toLowerCase]; [reflexivity|].
  now rewrite toLowerChar_idempotent, IH.
Qed.

(** X22. A request that is not aborted is handed to [requestUrl] with
    every header but [host] and [content-length], in whatever letter
    case these two are written; a key given twice keeps its last value.
    The content type passed along is the header written [content-type]
    in lower case exactly. *)
Theorem handle_request_headers {Q : Type} (buildQueryString : Q -> string)
  (request : HttpRequest Q) :
  exists p,
    handle_request buildQueryString false request = Normal p /\
    (forall k,
       getProperty (rq_headers p) k
       = if forwarded (k, EmptyString)
         then lastValue k (headers request) None else None) /\
    (forall k v, In (k, v) (rq_headers p) ->
       In (k, v) (headers request) /\
       toLowerCase k <> "host" /\ toLowerCase k <> "content-length") /\
    rq_contentType p = lastValue "content-type" (headers request) None.
Proof.
  eexists. split; [reflexivity|]. cbn [rq_headers rq_contentType].
  split; [|split].
  - intros k. rewrite getProperty_fromEntries. apply lastValue_filter.
  - intros k v H. apply In_fromEntries, filter_In in H as [Hin Hf].
    split; [exact Hin|]. unfold forwarded in Hf. cbn [fst] in Hf.
    apply negb_true_iff, orb_false_iff in Hf as [H1 H2].
    split; intros E; rewrite E in *; discriminate.
  - rewrite getProperty_fromEntries.
    apply (lastValue_filter "content-type" EmptyString).
Qed.

(** X23. The headers of the response are stored under lower-case
    names only: a header of the answer is found under the lower-case
    form of its name, and nothing is found under a name with a capital
    letter. *)
Theorem handle_response_headers (rsp : RequestUrlResponse) :
  (forall k v, In (k, v) (response_headers (handle_response rsp)) ->
     toLowerCase k = k) /\
  (forall name v, In (name, v) (rsp_headers rsp) ->
     exists v',
       getProperty (response_headers (handle_response rsp))
         (toLowerCase name) = Some v') /\
  (forall k, toLowerCase k <> k ->
     getProperty (response_headers (handle_response rsp)) k = None).
Proof.
  cbn [handle_response response_headers].
  assert (Hlow : forall k v,
            In (k, v) (map (fun kv => (toLowerCase (fst kv), snd kv))
                         (rsp_headers rsp)) ->
            toLowerCase k = k).
  { intros k v H. apply in_map_iff in H as ([n w] & [= <- _] & _).
    apply toLowerCase_idempotent. }
  split; [|split].
  - intros k v H. apply In_fromEntries in H. now apply (Hlow k v).
  - intros name v H. rewrite getProperty_fromEntries.
    apply (lastValue_In _ v). apply in_map_iff. now exists (name, v).
  - intros k Hk. rewrite getProperty_fromEntries. apply lastValue_None.
    intros v H. apply Hk. now apply (Hlow k v).
Qed.

(** X24. For a view that lies within its buffer, [bufferToArrayBuffer]
    returns the bytes of the view and no other byte of the buffer:
    [byteLength] bytes, the i-th being the byte of the buffer at
    [byteOffset + i]; this is the body a request other than GET and
    HEAD is sent with. *)
Theorem bufferToArrayBuffer_view (buffer : list Byte.byte)
  (byteOffset byteLength : nat)
  (Hin : byteOffset + byteLength <= List.length buffer) :
  List.length (bufferToArrayBuffer buffer byteOffset byteLength)
  = byteLength /\
  (forall i, i < byteLength ->
     nth_error (bufferToArrayBuffer buffer byteOffset byteLength) i
     = nth_error buffer (byteOffset + i)) /\
  (forall (Q : Type) (bq : Q -> string) (request : HttpRequest Q),
     body request = Some (ViewBody buffer byteOffset byteLength) ->
     method request <> "GET" -> method request <> "HEAD" ->
     exists p,
       handle_request bq false request = Normal p /\
       rq_body p
       = Some (BufferPayload
                 (bufferToArrayBuffer buffer byteOffset byteLength))).
Proof.
  unfold bufferToArrayBuffer, arraySlice; cbv zeta.
  rewrite !Nat.min_l by lia.
  replace (byteOffset + byteLength - byteOffset) with byteLength by lia.
  split; [|split].
  - rewrite length_firstn, length_skipn. lia.
  - intros i Hi. rewrite nth_error_firstn, nth_error_skipn.
    destruct (Nat.ltb_spec i byteLength); [reflexivity | lia].
  - intros Q bq request Hb Hg Hh. eexists. split; [reflexivity|].
    cbn [rq_body].
    destruct (String.eqb_spec (method request) "GET"); [contradiction|].
    destruct (String.eqb_spec (method request) "HEAD"); [contradiction|].
    cbn [orb]. rewrite Hb.
    unfold bufferToArrayBuffer, arraySlice; cbv zeta.
    rewrite !Nat.min_l by lia.
    now replace (byteOffset + byteLength - byteOffset) with byteLength
      by lia.
Qed.

End HttpFacts.

Lemma bufferToArrayBuffer_view_witness :
  let buffer := [Byte.x01; Byte.x02; Byte.x03; Byte.x04; Byte.x05] in
  List.length (Http.bufferToArrayBuffer buffer 1 3) = 3 /\
  nth_error (Http.bufferToArrayBuffer buffer 1 3) 2
  = nth_error buffer (1 + 2).
Proof.
  cbv zeta.
  assert (H : 1 + 3
              <= List.length
                   [Byte.x01; Byte.x02; Byte.x03; Byte.x04; Byte.x05])
    by (simpl; lia).
  destruct (bufferToArrayBuffer_view _ 1 3 H) as (Hl & Hn & _).
  split; [exact Hl | apply Hn; lia].
Defined.
